(** * inicpp: the [option] class of [option.h]

    A shallow embedding of the typed interface of [inicpp::option]
    (single read, list read, list replacement, append, positional insert,
    removal by value, removal by position) together with the properties
    of that interface.

    A member function of the C++ class becomes a computation that takes
    the object ([this]) and gives back its outcome and the object as it
    is once the call is over.  An outcome is a returned value, a thrown
    exception, or the dereference of a null pointer.  The object that
    comes with a thrown exception is the object as the call left it:
    nothing is rolled back. *)

From Stdlib Require Import List Bool Arith ZArith NArith String Floats Lia.
Import ListNotations.

Local Open Scope string_scope.
Local Open Scope list_scope.

Module inicpp.

(** ** Types of [types.h] and [exception.h] *)

(** Modelled from the spec: [types.h] is not part of the sources at hand.
    The enumeration [option_type] has exactly the five members the
    specification lists (boolean, signed integer, unsigned integer,
    floating point, string). *)
Inductive option_type : Set :=
| boolean_e
| signed_e
| unsigned_e
| float_e
| string_e.

(** Modelled from the spec: the five C++ types a template parameter
    [ValueType] of the typed interface ranges over, one per supported
    kind. *)
Inductive ValueType : Set :=
| boolean_ini_t
| signed_ini_t
| unsigned_ini_t
| float_ini_t
| string_ini_t.

(** The values of a [ValueType]: a boolean, a signed integer, an unsigned
    integer, a binary64 floating point number, a character string.  The
    interface does no arithmetic on them; it stores them, hands them
    back and compares them with [==]. *)
Definition value_of (T : ValueType) : Type :=
  match T with
  | boolean_ini_t => bool
  | signed_ini_t => Z
  | unsigned_ini_t => N
  | float_ini_t => float
  | string_ini_t => string
  end.

(** Modelled from the spec: [get_enum_type<ValueType>()] of [types.h]
    gives the member of [option_type] that stands for [ValueType]. *)
Definition get_enum_type (T : ValueType) : option_type :=
  match T with
  | boolean_ini_t => boolean_e
  | signed_ini_t => signed_e
  | unsigned_ini_t => unsigned_e
  | float_ini_t => float_e
  | string_ini_t => string_e
  end.

Definition option_type_eq_dec (a b : option_type) : {a = b} + {a <> b}.
Proof. decide equality. Defined.

Definition ValueType_eq_dec (a b : ValueType) : {a = b} + {a <> b}.
Proof. decide equality. Defined.

(** [ptr->get() == value] on two values of one [ValueType].  On floating
    point numbers this is the IEEE comparison: a NaN equals nothing, and
    the two zeros are equal. *)
Definition value_eqb (T : ValueType) : value_of T -> value_of T -> bool :=
  match T with
  | boolean_ini_t => Bool.eqb
  | signed_ini_t => Z.eqb
  | unsigned_ini_t => N.eqb
  | float_ini_t => PrimFloat.eqb
  | string_ini_t => String.eqb
  end.

(** [size_t]. *)
Definition size_t : Set := N.

(** Modelled from the spec: the two exceptions of [exception.h].
    [not_found_exception] carries the index or position it was raised
    for, [bad_cast_exception] a message. *)
Inductive exception : Set :=
| not_found_exception (index : size_t)
| bad_cast_exception (message : string).

(** ** Value cells *)

(** [option_holder] is the base class of the cells; the only class that
    derives from it is [option_value<ValueType>], which stores one
    [value_] of type [ValueType]. *)
Inductive option_holder : Type :=
| option_value (T : ValueType) (value_ : value_of T).

(** The kind of a cell: the member of [option_type] of the [ValueType]
    the cell was made with. *)
Definition holder_type (h : option_holder) : option_type :=
  match h with
  | option_value T _ => get_enum_type T
  end.

(** [dynamic_cast<option_value<ValueType> *>(&*h)]: the cell seen as an
    [option_value<ValueType>] when that is its class ([Some], here
    already with the [value_] that [ptr->get()] reads), the null pointer
    otherwise ([None]). *)
Definition dynamic_cast (T : ValueType) (h : option_holder)
  : Datatypes.option (value_of T) :=
  match h with
  | option_value T0 value_ =>
      match ValueType_eq_dec T0 T with
      | left e => Some (eq_rect T0 value_of value_ T e)
      | right _ => None
      end
  end.

Arguments dynamic_cast : simpl never.

(** ** The option object *)

(** Modelled from the spec: [option_schema.h] is not part of the sources
    at hand.  A [std::shared_ptr<option_schema>] is either null or the
    address of a schema owned elsewhere. *)
Definition option_schema_ptr : Set := Datatypes.option N.

(** The data members of [class option]. *)
Record option : Type := mk_option {
  name_ : string;
  type_ : option_type;
  values_ : list option_holder;
  option_schema_ : option_schema_ptr
}.

(** The option with other cells, and with another type tag. *)
Definition with_values (this : option) (vs : list option_holder) : option :=
  mk_option (name_ this) (type_ this) vs (option_schema_ this).

Definition with_type (this : option) (t : option_type) : option :=
  mk_option (name_ this) t (values_ this) (option_schema_ this).

(** ** Member functions as computations *)

(** How a call ends. *)
Inductive outcome (A : Type) : Type :=
| returned (a : A)
| thrown (e : exception)
| null_dereference.

Arguments returned {A} a.
Arguments thrown {A} e.
Arguments null_dereference {A}.

(** A member function with result type [A]. *)
Definition method (A : Type) : Type := option -> outcome A * option.

Definition ret {A : Type} (a : A) : method A :=
  fun this => (returned a, this).

Definition throw {A : Type} (e : exception) : method A :=
  fun this => (thrown e, this).

Definition deref_null {A : Type} : method A :=
  fun this => (null_dereference, this).

Definition bind {A B : Type} (m : method A) (k : A -> method B) : method B :=
  fun this =>
    match m this with
    | (returned a, this') => k a this'
    | (thrown e, this') => (thrown e, this')
    | (null_dereference, this') => (null_dereference, this')
    end.

(** Reading and writing the data members. *)
Definition read {A : Type} (field : option -> A) : method A :=
  fun this => (returned (field this), this).

Definition write_type_ (t : option_type) : method unit :=
  fun this => (returned tt, with_type this t).

Definition write_values_ (vs : list option_holder) : method unit :=
  fun this => (returned tt, with_values this vs).

Declare Scope method_scope.
Delimit Scope method_scope with method.
Bind Scope method_scope with method.

Notation "x <- m ;; k" := (bind m (fun x => k))
  (at level 61, m at next level, right associativity) : method_scope.
Notation "m ;; k" := (bind m (fun _ => k))
  (at level 61, right associativity) : method_scope.

Local Open Scope method_scope.

(** The message of every [bad_cast_exception] of [option.h]. *)
Definition cannot_cast : string := "Cannot cast to requested type".

(** [for (const auto &item : list) body(item);] *)
Fixpoint for_each {A : Type} (list : list A) (body : A -> method unit)
  : method unit :=
  match list with
  | [] => ret tt
  | item :: rest => body item ;; for_each rest body
  end.

(** *** Operations of [std::vector] used by the class *)

(** [v.push_back(x)]. *)
Definition push_back {A : Type} (v : list A) (x : A) : list A := v ++ [x].

(** [v.insert(v.begin() + position, x)], for [position <= v.size()]: the
    elements from [position] on move one place up. *)
Fixpoint vector_insert {A : Type} (v : list A) (position : nat) (x : A)
  : list A :=
  match position, v with
  | O, _ => x :: v
  | S p, [] => [x]
  | S p, y :: v' => y :: vector_insert v' p x
  end.

(** [v.erase(v.begin() + position)], for [position < v.size()]. *)
Fixpoint vector_erase {A : Type} (v : list A) (position : nat) : list A :=
  match position, v with
  | _, [] => []
  | O, _ :: v' => v'
  | S p, y :: v' => y :: vector_erase v' p
  end.

(** [v.size()]. *)
Definition size {A : Type} (v : list A) : size_t := N.of_nat (List.length v).

(** [v.empty()]. *)
Definition empty {A : Type} (v : list A) : bool :=
  match v with
  | [] => true
  | _ :: _ => false
  end.

(** *** [option::get] *)

(** [template<typename ValueType> ValueType get() const]; once the
    sequence is known not to be empty, [values_[0]] is its first cell. *)
Definition get (T : ValueType) : method (value_of T) :=
  values <- read values_ ;;
  match values with
  | [] => throw (not_found_exception 0%N)
  | first :: _ =>
      match dynamic_cast T first with
      | None => throw (bad_cast_exception cannot_cast)
      | Some value => ret value
      end
  end.

(** *** [option::add_to_list] *)

(** [template<typename ValueType> void add_to_list(ValueType value)] *)
Definition add_to_list (T : ValueType) (value : value_of T) : method unit :=
  type <- read type_ ;;
  if option_type_eq_dec (get_enum_type T) type then
    values <- read values_ ;;
    write_values_ (push_back values (option_value T value))
  else
    throw (bad_cast_exception cannot_cast).

(** [template<typename ValueType> void add_to_list(ValueType value,
    size_t position)] *)
Definition add_to_list_at (T : ValueType) (value : value_of T)
  (position : size_t) : method unit :=
  type <- read type_ ;;
  if option_type_eq_dec (get_enum_type T) type then
    values <- read values_ ;;
    if (size values <? position)%N then
      throw (not_found_exception position)
    else
      write_values_
        (vector_insert values (N.to_nat position) (option_value T value))
  else
    throw (bad_cast_exception cannot_cast).

(** *** [option::set_list] *)

(** [template<typename ValueType> void set_list(const
    std::vector<ValueType> &list)] *)
Definition set_list (T : ValueType) (list : list (value_of T)) : method unit :=
  write_values_ [] ;;
  write_type_ (get_enum_type T) ;;
  for_each list (fun item => add_to_list T item).

(** *** [option::get_list] *)

(** The loop of [get_list] over the cells still to visit, [results]
    being the vector built so far. *)
Fixpoint get_list_loop (T : ValueType) (rest : list option_holder)
  (results : list (value_of T)) : method (list (value_of T)) :=
  match rest with
  | [] => ret results
  | value :: rest' =>
      match dynamic_cast T value with
      | None => throw (bad_cast_exception cannot_cast)
      | Some v => get_list_loop T rest' (push_back results v)
      end
  end.

(** [template<typename ValueType> std::vector<ValueType> get_list() const] *)
Definition get_list (T : ValueType) : method (list (value_of T)) :=
  values <- read values_ ;;
  if empty values then
    throw (not_found_exception 0%N)
  else
    get_list_loop T values [].

(** *** [option::remove_from_list] *)

(** The loop of [remove_from_list].  The iterator [it] is given by its
    distance from [values_.cbegin()] and by the cells from it to
    [values_.cend()].  The result of the cast is dereferenced without a
    test; after [erase] the loop is left. *)
Fixpoint remove_from_list_loop (T : ValueType) (value : value_of T)
  (it : nat) (rest : list option_holder) : method unit :=
  match rest with
  | [] => ret tt
  | cell :: rest' =>
      match dynamic_cast T cell with
      | None => deref_null
      | Some v =>
          if value_eqb T v value then
            values <- read values_ ;;
            write_values_ (vector_erase values it)
          else
            remove_from_list_loop T value (S it) rest'
      end
  end.

(** [template<typename ValueType> void remove_from_list(ValueType value)] *)
Definition remove_from_list (T : ValueType) (value : value_of T)
  : method unit :=
  type <- read type_ ;;
  if option_type_eq_dec (get_enum_type T) type then
    values <- read values_ ;;
    remove_from_list_loop T value 0 values
  else
    throw (bad_cast_exception cannot_cast).

(** *** [option::remove_from_list_pos] *)

(** Modelled from the spec: [remove_from_list_pos] is declared in
    [option.h] and defined in a file that is not part of the sources at
    hand.  By the specification it removes the element at [position] and
    fails with [NotFound] if [position >= size]; the exception carries
    the offending position. *)
Definition remove_from_list_pos (position : size_t) : method unit :=
  values <- read values_ ;;
  if (size values <=? position)%N then
    throw (not_found_exception position)
  else
    write_values_ (vector_erase values (N.to_nat position)).

(** [set_list] by the words of the specification: the sequence is
    cleared, the type is retagged to the kind of the list, and the
    elements of the list are appended one after the other. *)
Definition set_list_spec (T : ValueType) (list : list (value_of T))
  (this : option) : option :=
  let cleared := with_values this [] in
  let retagged := with_type cleared (get_enum_type T) in
  fold_left
    (fun o item => with_values o (push_back (values_ o) (option_value T item)))
    list retagged.

(** *** The calls that change an option *)

(** A call of one of the member functions of the typed interface that
    write to the option, with its template argument and its
    arguments. *)
Inductive call : Type :=
| call_set_list (T : ValueType) (list : list (value_of T))
| call_add_to_list (T : ValueType) (value : value_of T)
| call_add_to_list_at (T : ValueType) (value : value_of T)
    (position : size_t)
| call_remove_from_list (T : ValueType) (value : value_of T)
| call_remove_from_list_pos (position : size_t).

Definition perform (c : call) : method unit :=
  match c with
  | call_set_list T list => set_list T list
  | call_add_to_list T value => add_to_list T value
  | call_add_to_list_at T value position => add_to_list_at T value position
  | call_remove_from_list T value => remove_from_list T value
  | call_remove_from_list_pos position => remove_from_list_pos position
  end.

(** *** [option::set] and the assignment overloads *)

(** What an assignment overload does where the specification leaves it
    open: the outcome of the call and the value sequence it leaves. *)
Definition open_assignment : Type :=
  forall T : ValueType,
    value_of T -> option -> outcome unit * list option_holder.

(** Modelled from the spec: the five overloads [operator=(boolean_ini_t)]
    to [operator=(string_ini_t)] are declared in [option.h] and defined
    in a file that is not part of the sources at hand.  By the
    specification (4.3) an assignment replaces the value of slot 0; the
    sequence must not be empty and the kind of the value must be the
    option's type.  What the overloads do on an empty sequence or with a
    value of another kind the specification leaves open ("behavior
    depends on which overload is invoked"); this is the parameter
    [unspecified].  By the data model (3) the name is immutable and the
    type is immutable but for [set_list], so that the open part gives
    an outcome and a value sequence, and the name and the type stay. *)
Definition operator_assign (unspecified : open_assignment) (T : ValueType)
  (arg : value_of T) : method unit :=
  fun this =>
    match values_ this with
    | _ :: rest =>
        if option_type_eq_dec (get_enum_type T) (type_ this) then
          (returned tt, with_values this (option_value T arg :: rest))
        else
          let (o, values) := unspecified T arg this in
          (o, with_values this values)
    | [] =>
        let (o, values) := unspecified T arg this in
        (o, with_values this values)
    end.

(** [template<typename ValueType> void set(ValueType value)]:
    [this->operator =(value);], the reference that the assignment
    returns being dropped. *)
Definition set (unspecified : open_assignment) (T : ValueType)
  (value : value_of T) : method unit :=
  operator_assign unspecified T value.

(** The behaviour that the specification recommends where it leaves the
    assignment open: fail with [BadCast], the values being left. *)
Definition fail_fast : open_assignment :=
  fun _ _ this => (thrown (bad_cast_exception cannot_cast), values_ this).

(** The calls of the typed interface that change an option, as the data
    model lists them: [set], and the calls of [call]. *)
Inductive typed_call : Type :=
| call_set (T : ValueType) (value : value_of T)
| call_write (c : call).

Definition perform_typed (unspecified : open_assignment) (c : typed_call)
  : method unit :=
  match c with
  | call_set T value => set unspecified T value
  | call_write c' => perform c'
  end.

(** *** [option::copy_option] *)

(** [template <typename ValueType> void copy_option(const
    std::unique_ptr<option_holder> &opt)]: the private helper that
    duplicates one cell onto the end of [values_].  The result of the
    cast is dereferenced without a test, and the option's type is not
    looked at. *)
Definition copy_option (T : ValueType) (opt : option_holder) : method unit :=
  match dynamic_cast T opt with
  | None => deref_null
  | Some v =>
      values <- read values_ ;;
      write_values_ (push_back values (option_value T v))
  end.

(** *** Sequences of calls *)

(** The calls whose bodies [option.h] gives. *)
Definition defined_in_option_h (c : call) : bool :=
  match c with
  | call_remove_from_list_pos _ => false
  | _ => true
  end.

(** A caller that makes the calls [cs] one after the other on one
    option and goes on after an exception: the outcomes in order, and
    the option in the end. *)
Fixpoint perform_all (cs : list call) (this : option)
  : list (outcome unit) * option :=
  match cs with
  | [] => ([], this)
  | c :: cs' =>
      let (o, this') := perform c this in
      let (os, this'') := perform_all cs' this' in
      (o :: os, this'')
  end.

(** *** Tests on cells *)

(** The test [ptr->get() == value] of [remove_from_list<ValueType>] on a
    cell, false on a cell of another class. *)
Definition equals_value (T : ValueType) (value : value_of T)
  (cell : option_holder) : bool :=
  match dynamic_cast T cell with
  | Some v => value_eqb T v value
  | None => false
  end.

(** ** The data-model invariant *)

(** Every cell is of the kind the option's type says; this holds in
    particular of an option without cells. *)
Definition homogeneous (this : option) : Prop :=
  Forall (fun cell => holder_type cell = type_ this) (values_ this).

(** The same, as a test. *)
Definition homogeneousb (this : option) : bool :=
  forallb
    (fun cell =>
       if option_type_eq_dec (holder_type cell) (type_ this)
       then true else false)
    (values_ this).

(** ** Basic facts *)

Ltac step_method :=
  unfold bind, read, ret, throw, deref_null, write_values_, write_type_;
  simpl.

Lemma get_enum_type_inj (T T' : ValueType) :
  get_enum_type T = get_enum_type T' -> T = T'.
Proof. destruct T, T'; simpl; congruence. Qed.

Lemma dynamic_cast_same (T : ValueType) (v : value_of T) :
  dynamic_cast T (option_value T v) = Some v.
Proof. destruct T; reflexivity. Qed.

Lemma option_value_inj (T : ValueType) (a b : value_of T) :
  option_value T a = option_value T b -> a = b.
Proof.
  intros H. apply (f_equal (dynamic_cast T)) in H.
  rewrite !dynamic_cast_same in H. congruence.
Qed.

Lemma dynamic_cast_other (T T' : ValueType) (v : value_of T) :
  T <> T' -> dynamic_cast T' (option_value T v) = None.
Proof.
  intros Hne. unfold dynamic_cast.
  destruct (ValueType_eq_dec T T') as [e | _]; [contradiction | reflexivity].
Qed.

Lemma dynamic_cast_of_type (T : ValueType) (cell : option_holder) :
  holder_type cell = get_enum_type T ->
  exists v, cell = option_value T v /\ dynamic_cast T cell = Some v.
Proof.
  destruct cell as [T0 v0]. simpl holder_type. intros H.
  apply get_enum_type_inj in H. subst T0.
  exists v0. split; [reflexivity | apply dynamic_cast_same].
Qed.

Lemma dynamic_cast_not_of_type (T : ValueType) (cell : option_holder) :
  holder_type cell <> get_enum_type T -> dynamic_cast T cell = None.
Proof.
  destruct cell as [T0 v0]. simpl holder_type. intros H.
  apply dynamic_cast_other. congruence.
Qed.

Lemma homogeneousb_spec (this : option) :
  homogeneousb this = true <-> homogeneous this.
Proof.
  unfold homogeneousb, homogeneous. rewrite forallb_forall, Forall_forall.
  split; intros H cell Hin; specialize (H cell Hin);
    destruct (option_type_eq_dec (holder_type cell) (type_ this));
    congruence.
Qed.

(** The invariant in the words of the data model: every cell is of the
    kind of the type tag, unless the sequence is empty. *)
Lemma homogeneous_unless_empty (this : option) :
  homogeneous this <->
  values_ this = [] \/
  (forall cell, In cell (values_ this) -> holder_type cell = type_ this).
Proof.
  unfold homogeneous. rewrite Forall_forall. split.
  - intros H. right. exact H.
  - intros [Hempty | H]; [rewrite Hempty; intros cell [] | exact H].
Qed.

(** ** Reading an option without values *)

(** C3: on an option whose value sequence is empty, [get<K>()] and
    [get_list<K>()] both throw [not_found_exception], for every
    requested kind [K], and the exception carries the index 0.  The
    option is left as it was. *)
Theorem empty_read_not_found (T : ValueType) (this : option) :
  values_ this = [] ->
  get T this = (thrown (not_found_exception 0%N), this) /\
  get_list T this = (thrown (not_found_exception 0%N), this).
Proof.
  intros Hempty. unfold get, get_list, bind, read, throw.
  rewrite Hempty. simpl. split; reflexivity.
Qed.

Lemma empty_read_not_found_witness :
  get string_ini_t (mk_option "ports" string_e [] None)
    = (thrown (not_found_exception 0%N), mk_option "ports" string_e [] None) /\
  get_list string_ini_t (mk_option "ports" string_e [] None)
    = (thrown (not_found_exception 0%N), mk_option "ports" string_e [] None).
Proof.
  apply (empty_read_not_found string_ini_t (mk_option "ports" string_e [] None)).
  reflexivity.
Defined.

(** ** What [set_list] leaves behind *)

Lemma add_to_list_same_type (T : ValueType) (value : value_of T)
  (this : option) :
  type_ this = get_enum_type T ->
  add_to_list T value this
    = (returned tt,
       with_values this (push_back (values_ this) (option_value T value))).
Proof.
  intros Htype. unfold add_to_list. step_method. rewrite Htype.
  destruct (option_type_eq_dec (get_enum_type T) (get_enum_type T))
    as [_ | Hne]; [reflexivity | contradiction].
Qed.

Lemma add_to_list_other_type (T : ValueType) (value : value_of T)
  (this : option) :
  get_enum_type T <> type_ this ->
  add_to_list T value this = (thrown (bad_cast_exception cannot_cast), this).
Proof.
  intros Hne. unfold add_to_list. step_method.
  destruct (option_type_eq_dec (get_enum_type T) (type_ this));
    [contradiction | reflexivity].
Qed.

Lemma for_each_app {A : Type} (l1 l2 : list A) (body : A -> method unit)
  (this : option) :
  for_each (l1 ++ l2) body this
    = (for_each l1 body ;; for_each l2 body) this.
Proof.
  revert this. induction l1 as [| item l1 IH]; intros this; simpl.
  - reflexivity.
  - unfold bind in *. destruct (body item this) as [[[] | e |] this'];
      [apply IH | reflexivity | reflexivity].
Qed.

(** Appending a whole list to an option of the list's kind. *)
Lemma for_each_add_to_list (T : ValueType) (list : list (value_of T)) :
  forall this : option,
    type_ this = get_enum_type T ->
    for_each list (fun item => add_to_list T item) this
      = (returned tt,
         with_values this (values_ this ++ map (option_value T) list)).
Proof.
  induction list as [| item list IH]; intros this Htype; simpl.
  - unfold ret, with_values. rewrite app_nil_r. destruct this; reflexivity.
  - unfold bind. rewrite (add_to_list_same_type T item this Htype).
    rewrite IH by exact Htype. unfold with_values, push_back. simpl.
    rewrite <- app_assoc. reflexivity.
Qed.

Lemma set_list_run (T : ValueType) (list : list (value_of T))
  (this : option) :
  set_list T list this
    = (returned tt,
       mk_option (name_ this) (get_enum_type T)
         (map (option_value T) list) (option_schema_ this)).
Proof.
  unfold set_list. step_method.
  rewrite for_each_add_to_list by reflexivity. reflexivity.
Qed.

(** ** What [get_list] reads *)

Lemma get_list_loop_same_type (T : ValueType) (list : list (value_of T)) :
  forall (results : Datatypes.list (value_of T)) (this : option),
    get_list_loop T (map (option_value T) list) results this
      = (returned (results ++ list), this).
Proof.
  induction list as [| item list IH]; intros results this; simpl.
  - rewrite app_nil_r. reflexivity.
  - rewrite dynamic_cast_same, IH. unfold push_back.
    rewrite <- app_assoc. reflexivity.
Qed.

Lemma get_list_same_type (T : ValueType) (list : list (value_of T))
  (this : option) :
  list <> [] ->
  values_ this = map (option_value T) list ->
  get_list T this = (returned list, this).
Proof.
  intros Hne Hvalues. unfold get_list. step_method. rewrite Hvalues.
  destruct list as [| item list]; [contradiction |].
  simpl empty. cbv iota. apply (get_list_loop_same_type T (item :: list) []).
Qed.

(** ** List round trip *)

(** C1 (amended): for every non-empty list [L] of one supported kind
    [K], [set_list<K>(L)] followed by [get_list<K>()] returns a list
    equal to [L], in the order of [L]; after [set_list<K>] of the empty
    list the value sequence is empty and [get_list<K>()] throws
    [not_found_exception(0)]. *)
Theorem set_list_get_list (T : ValueType) (list : list (value_of T))
  (this : option) :
  (list <> [] ->
   fst (get_list T (snd (set_list T list this))) = returned list) /\
  (list = [] ->
   values_ (snd (set_list T list this)) = [] /\
   fst (get_list T (snd (set_list T list this)))
     = thrown (not_found_exception 0%N)).
Proof.
  rewrite set_list_run. simpl snd. split.
  - intros Hne. rewrite (get_list_same_type T list); auto.
  - intros ->. split; reflexivity.
Qed.

Lemma set_list_get_list_witness :
  let this := mk_option "ports" string_e [] None in
  fst (get_list string_ini_t (snd (set_list string_ini_t ["80"; "443"] this)))
    = returned ["80"; "443"] /\
  fst (get_list signed_ini_t (snd (set_list signed_ini_t [] this)))
    = thrown (not_found_exception 0%N).
Proof.
  intros this. split.
  - apply (proj1 (set_list_get_list string_ini_t ["80"; "443"] this)).
    discriminate.
  - apply (proj2 (set_list_get_list signed_ini_t [] this)).
    reflexivity.
Defined.

(** C1 as written fails on the empty list: [set_list<string>({})]
    followed by [get_list<string>()] throws [not_found_exception(0)];
    it does not return the empty list. *)
Lemma set_list_get_list_empty_counterexample :
  let this := mk_option "ports" string_e [option_value string_ini_t "80"] None in
  let L : list (value_of string_ini_t) := [] in
  fst (get_list string_ini_t (snd (set_list string_ini_t L this)))
    = thrown (not_found_exception 0%N) /\
  fst (get_list string_ini_t (snd (set_list string_ini_t L this)))
    <> returned L.
Proof.
  split; [reflexivity | discriminate].
Qed.

(** ** Kind mismatch *)

Lemma add_to_list_at_other_type (T : ValueType) (value : value_of T)
  (position : size_t) (this : option) :
  get_enum_type T <> type_ this ->
  add_to_list_at T value position this
    = (thrown (bad_cast_exception cannot_cast), this).
Proof.
  intros Hne. unfold add_to_list_at. step_method.
  destruct (option_type_eq_dec (get_enum_type T) (type_ this));
    [contradiction | reflexivity].
Qed.

(** C2: let the option satisfy the data-model invariant (every cell is
    of the kind of the type tag [K]) and have at least one value, and
    let the requested kind [K'] differ from [K].  Then [get<K'>()],
    [get_list<K'>()] and both overloads of [add_to_list] with a value of
    kind [K'] throw [bad_cast_exception]; none of them returns a value,
    and the option is left as it was. *)
Theorem kind_mismatch_bad_cast (T' : ValueType) (this : option) :
  homogeneous this ->
  values_ this <> [] ->
  get_enum_type T' <> type_ this ->
  get T' this = (thrown (bad_cast_exception cannot_cast), this) /\
  get_list T' this = (thrown (bad_cast_exception cannot_cast), this) /\
  (forall value : value_of T',
      add_to_list T' value this
        = (thrown (bad_cast_exception cannot_cast), this)) /\
  (forall (value : value_of T') (position : size_t),
      add_to_list_at T' value position this
        = (thrown (bad_cast_exception cannot_cast), this)).
Proof.
  intros Hhom Hne Hkind.
  assert (Hfirst : exists first others,
             values_ this = first :: others /\
             dynamic_cast T' first = None).
  { unfold homogeneous in Hhom.
    destruct (values_ this) as [| first others]; [contradiction |].
    exists first, others. split; [reflexivity |].
    apply dynamic_cast_not_of_type.
    inversion Hhom as [| ? ? Hcell _]. congruence. }
  destruct Hfirst as (first & others & Hvalues & Hcast).
  repeat split.
  - unfold get. step_method. rewrite Hvalues, Hcast. reflexivity.
  - unfold get_list. step_method. rewrite Hvalues. simpl.
    rewrite Hcast. reflexivity.
  - intros value. apply add_to_list_other_type, Hkind.
  - intros value position. apply add_to_list_at_other_type, Hkind.
Qed.

Lemma kind_mismatch_bad_cast_witness :
  let this :=
    mk_option "ports" string_e
      [option_value string_ini_t "80"; option_value string_ini_t "443"]
      None in
  get signed_ini_t this = (thrown (bad_cast_exception cannot_cast), this) /\
  get_list signed_ini_t this
    = (thrown (bad_cast_exception cannot_cast), this) /\
  (forall value : value_of signed_ini_t,
      add_to_list signed_ini_t value this
        = (thrown (bad_cast_exception cannot_cast), this)) /\
  (forall (value : value_of signed_ini_t) (position : size_t),
      add_to_list_at signed_ini_t value position this
        = (thrown (bad_cast_exception cannot_cast), this)).
Proof.
  intros this. apply (kind_mismatch_bad_cast signed_ini_t this).
  - apply homogeneousb_spec. reflexivity.
  - discriminate.
  - discriminate.
Defined.

(** ** Insertion at a position *)

Lemma vector_insert_length {A : Type} (v : list A) (x : A) :
  forall position : nat,
    List.length (vector_insert v position x) = S (List.length v).
Proof.
  induction v as [| y v IH]; intros [| p]; simpl; try reflexivity.
  rewrite IH. reflexivity.
Qed.

Lemma vector_insert_end {A : Type} (v : list A) (x : A) :
  vector_insert v (List.length v) x = push_back v x.
Proof.
  induction v as [| y v IH]; simpl; [reflexivity |].
  rewrite IH. reflexivity.
Qed.

Lemma vector_insert_at {A : Type} (v : list A) (x : A) :
  forall position : nat,
    position <= List.length v ->
    nth_error (vector_insert v position x) position = Some x.
Proof.
  induction v as [| y v IH]; intros [| p] Hle; simpl in Hle;
    try lia; try reflexivity.
  change (nth_error (vector_insert v p x) p = Some x).
  apply IH. lia.
Qed.

Lemma vector_insert_below {A : Type} (v : list A) (x : A) :
  forall position i : nat,
    i < position <= List.length v ->
    nth_error (vector_insert v position x) i = nth_error v i.
Proof.
  induction v as [| y v IH]; intros [| p] [| i] [Hlt Hle];
    simpl in Hle; try lia; try reflexivity.
  change (nth_error (vector_insert v p x) i = nth_error v i).
  apply IH. lia.
Qed.

Lemma vector_insert_above {A : Type} (v : list A) (x : A) :
  forall position i : nat,
    position <= i ->
    position <= List.length v ->
    nth_error (vector_insert v position x) (S i) = nth_error v i.
Proof.
  induction v as [| y v IH]; intros [| p] i Hle Hlen;
    simpl in Hlen; try lia.
  - destruct i as [| [| i]]; reflexivity.
  - reflexivity.
  - destruct i as [| i]; [lia |].
    change (nth_error (vector_insert v p x) (S i) = nth_error v i).
    apply IH; lia.
Qed.

Lemma add_to_list_at_in_range (T : ValueType) (value : value_of T)
  (position : size_t) (this : option) :
  get_enum_type T = type_ this ->
  (position <= size (values_ this))%N ->
  add_to_list_at T value position this
    = (returned tt,
       with_values this
         (vector_insert (values_ this) (N.to_nat position)
            (option_value T value))).
Proof.
  intros Htype Hle. unfold add_to_list_at. step_method.
  destruct (option_type_eq_dec (get_enum_type T) (type_ this));
    [| contradiction].
  destruct (N.ltb_spec (size (values_ this)) position); [lia | reflexivity].
Qed.

Lemma add_to_list_at_out_of_range (T : ValueType) (value : value_of T)
  (position : size_t) (this : option) :
  get_enum_type T = type_ this ->
  (size (values_ this) < position)%N ->
  add_to_list_at T value position this
    = (thrown (not_found_exception position), this).
Proof.
  intros Htype Hgt. unfold add_to_list_at. step_method.
  destruct (option_type_eq_dec (get_enum_type T) (type_ this));
    [| contradiction].
  destruct (N.ltb_spec (size (values_ this)) position); [reflexivity | lia].
Qed.

(** C6: [add_to_list(value, p)] on an option of the kind of [value]
    appends [value] when [p] is the current size (it then does what
    [add_to_list(value)] does), and when [p] is less than the size it
    puts [value] at position [p], leaves the elements before [p] in
    place and moves the elements from [p] on one place up; when [p] is
    greater than the size it throws [not_found_exception(p)].  When the
    kind of [value] differs from the option's type it throws
    [bad_cast_exception], whatever [p] is.  The option is unchanged when
    it throws. *)
Theorem add_to_list_at_spec (T : ValueType) (value : value_of T)
  (p : size_t) (this : option) :
  (get_enum_type T <> type_ this ->
   add_to_list_at T value p this
     = (thrown (bad_cast_exception cannot_cast), this)) /\
  (get_enum_type T = type_ this ->
   ((size (values_ this) < p)%N ->
    add_to_list_at T value p this = (thrown (not_found_exception p), this)) /\
   (p = size (values_ this) ->
    add_to_list_at T value p this
      = (returned tt,
         with_values this (values_ this ++ [option_value T value])) /\
    add_to_list_at T value p this = add_to_list T value this) /\
   ((p < size (values_ this))%N ->
    exists values',
      add_to_list_at T value p this = (returned tt, with_values this values') /\
      List.length values' = S (List.length (values_ this)) /\
      nth_error values' (N.to_nat p) = Some (option_value T value) /\
      (forall i, i < N.to_nat p ->
                 nth_error values' i = nth_error (values_ this) i) /\
      (forall i, N.to_nat p <= i ->
                 nth_error values' (S i) = nth_error (values_ this) i))).
Proof.
  split; [apply add_to_list_at_other_type |].
  intros Htype. unfold size. repeat split.
  - intros Hgt. apply add_to_list_at_out_of_range; assumption.
  - subst p. rewrite add_to_list_at_in_range by (auto; unfold size; lia).
    rewrite Nat2N.id, vector_insert_end. reflexivity.
  - subst p. rewrite add_to_list_at_in_range by (auto; unfold size; lia).
    rewrite Nat2N.id, vector_insert_end.
    symmetry. apply add_to_list_same_type. auto.
  - intros Hlt.
    exists (vector_insert (values_ this) (N.to_nat p) (option_value T value)).
    split; [apply add_to_list_at_in_range; auto; unfold size; lia |].
    split; [apply vector_insert_length |].
    split; [apply vector_insert_at; lia |].
    split.
    + intros i Hi. apply vector_insert_below. lia.
    + intros i Hi. apply vector_insert_above; lia.
Qed.

Lemma add_to_list_at_spec_witness :
  let this :=
    mk_option "ports" string_e
      [option_value string_ini_t "80"; option_value string_ini_t "443"]
      None in
  add_to_list_at boolean_ini_t true 1%N this
    = (thrown (bad_cast_exception cannot_cast), this) /\
  add_to_list_at string_ini_t "8080" 3%N this
    = (thrown (not_found_exception 3%N), this) /\
  add_to_list_at string_ini_t "8080" 2%N this
    = (returned tt,
       with_values this
         [option_value string_ini_t "80"; option_value string_ini_t "443";
          option_value string_ini_t "8080"]) /\
  exists values',
    add_to_list_at string_ini_t "8080" 1%N this
      = (returned tt, with_values this values') /\
    nth_error values' 1 = Some (option_value string_ini_t "8080").
Proof.
  intros this.
  pose proof (add_to_list_at_spec boolean_ini_t true 1%N this) as [Hbad _].
  pose proof (add_to_list_at_spec string_ini_t "8080" 3%N this) as [_ Hhigh].
  pose proof (add_to_list_at_spec string_ini_t "8080" 2%N this) as [_ Hend].
  pose proof (add_to_list_at_spec string_ini_t "8080" 1%N this) as [_ Hmid].
  split; [apply Hbad; discriminate |].
  split; [apply (proj1 (Hhigh eq_refl)); reflexivity |].
  split; [apply (proj1 (proj2 (Hend eq_refl))); reflexivity |].
  destruct (proj2 (proj2 (Hmid eq_refl)) eq_refl)
    as (values' & Hrun & _ & Hat & _).
  exists values'. split; [exact Hrun | exact Hat].
Defined.

(** ** Removal by value *)

(** On the kinds other than floating point, [==] is equality. *)
Lemma value_eqb_eq (T : ValueType) (a b : value_of T) :
  T <> float_ini_t -> (value_eqb T a b = true <-> a = b).
Proof.
  destruct T; simpl; intros Hne.
  - split; [apply Bool.eqb_prop | intros ->; apply Bool.eqb_reflx].
  - apply Z.eqb_eq.
  - apply N.eqb_eq.
  - contradiction.
  - apply String.eqb_eq.
Qed.

Lemma with_values_same (this : option) :
  with_values this (values_ this) = this.
Proof. destruct this; reflexivity. Qed.

Lemma vector_erase_app {A : Type} (before : list A) (x : A) (after : list A) :
  vector_erase (before ++ x :: after) (List.length before) = before ++ after.
Proof.
  induction before as [| y before IH]; simpl; [reflexivity |].
  rewrite IH. reflexivity.
Qed.

Lemma Forall_vector_erase {A : Type} (P : A -> Prop) (v : list A) :
  forall position : nat, Forall P v -> Forall P (vector_erase v position).
Proof.
  induction v as [| y v IH]; intros [| p] H; simpl; auto;
    inversion H; subst; auto.
Qed.

Lemma Forall_vector_insert {A : Type} (P : A -> Prop) (v : list A) (x : A) :
  forall position : nat,
    P x -> Forall P v -> Forall P (vector_insert v position x).
Proof.
  induction v as [| y v IH]; intros [| p] Hx H; simpl; auto.
  inversion H; subst. auto.
Qed.

Section RemoveLoop.

Variable T : ValueType.
Variable value : value_of T.

(** The loop does not throw. *)
Lemma remove_from_list_loop_not_thrown (rest : list option_holder) :
  forall (it : nat) (this : option) (e : exception),
    fst (remove_from_list_loop T value it rest this) <> thrown e.
Proof.
  induction rest as [| cell rest IH]; intros it this e; simpl.
  - discriminate.
  - destruct (dynamic_cast T cell) as [v |]; [| discriminate].
    destruct (value_eqb T v value); [discriminate | apply IH].
Qed.

(** The loop leaves the option as it is or erases one cell. *)
Lemma remove_from_list_loop_state (rest : list option_holder) :
  forall (it : nat) (this : option),
    snd (remove_from_list_loop T value it rest this) = this \/
    exists position,
      snd (remove_from_list_loop T value it rest this)
        = with_values this (vector_erase (values_ this) position).
Proof.
  induction rest as [| cell rest IH]; intros it this; simpl.
  - left. reflexivity.
  - destruct (dynamic_cast T cell) as [v |]; [| left; reflexivity].
    destruct (value_eqb T v value); [| apply IH].
    right. exists it. reflexivity.
Qed.

(** On cells of kind [T] every cast gives a cell, and the loop
    returns. *)
Lemma remove_from_list_loop_returns (rest : list option_holder) :
  forall (it : nat) (this : option),
    Forall (fun cell => holder_type cell = get_enum_type T) rest ->
    fst (remove_from_list_loop T value it rest this) = returned tt.
Proof.
  induction rest as [| cell rest IH]; intros it this Hrest; simpl.
  - reflexivity.
  - inversion Hrest as [| ? ? Hcell Hrest']; subst.
    destruct (dynamic_cast_of_type T cell Hcell) as (v & _ & ->).
    destruct (value_eqb T v value); [reflexivity | apply IH, Hrest'].
Qed.

(** No cell from the iterator on equals [value]: nothing happens. *)
Lemma remove_from_list_loop_absent (rest : list option_holder) :
  forall (it : nat) (this : option),
    Forall (fun cell => holder_type cell = get_enum_type T) rest ->
    (forall v, In (option_value T v) rest -> value_eqb T v value = false) ->
    remove_from_list_loop T value it rest this = (returned tt, this).
Proof.
  induction rest as [| cell rest IH]; intros it this Hrest Hno; simpl.
  - reflexivity.
  - inversion Hrest as [| ? ? Hcell Hrest']; subst.
    destruct (dynamic_cast_of_type T cell Hcell) as (v & -> & ->).
    rewrite (Hno v) by (left; reflexivity).
    apply IH; [exact Hrest' |].
    intros v' Hin. apply Hno. right. exact Hin.
Qed.

(** The first cell from the iterator on that equals [value] is
    erased. *)
Lemma remove_from_list_loop_first (pre : list option_holder) :
  forall (before post : list option_holder) (v : value_of T)
         (this : option),
    values_ this = before ++ pre ++ option_value T v :: post ->
    Forall (fun cell => holder_type cell = get_enum_type T) pre ->
    (forall v', In (option_value T v') pre -> value_eqb T v' value = false) ->
    value_eqb T v value = true ->
    remove_from_list_loop T value (List.length before)
      (pre ++ option_value T v :: post) this
      = (returned tt, with_values this (before ++ pre ++ post)).
Proof.
  induction pre as [| cell pre IH];
    intros before post v this Hvalues Hpre Hno Hv; simpl.
  - rewrite dynamic_cast_same, Hv. step_method.
    simpl in Hvalues. rewrite Hvalues, vector_erase_app. reflexivity.
  - inversion Hpre as [| ? ? Hcell Hpre']; subst.
    destruct (dynamic_cast_of_type T cell Hcell) as (v' & -> & ->).
    rewrite (Hno v') by (left; reflexivity).
    replace (S (List.length before))
      with (List.length (before ++ [option_value T v']))
      by (rewrite length_app; simpl; lia).
    rewrite (IH (before ++ [option_value T v']) post v this).
    + rewrite <- app_assoc. reflexivity.
    + rewrite Hvalues, <- app_assoc. reflexivity.
    + exact Hpre'.
    + intros v'' Hin. apply Hno. right. exact Hin.
    + exact Hv.
Qed.

End RemoveLoop.

Lemma remove_from_list_other_type (T : ValueType) (value : value_of T)
  (this : option) :
  get_enum_type T <> type_ this ->
  remove_from_list T value this
    = (thrown (bad_cast_exception cannot_cast), this).
Proof.
  intros Hne. unfold remove_from_list. step_method.
  destruct (option_type_eq_dec (get_enum_type T) (type_ this));
    [contradiction | reflexivity].
Qed.

Lemma remove_from_list_same_type (T : ValueType) (value : value_of T)
  (this : option) :
  get_enum_type T = type_ this ->
  remove_from_list T value this
    = remove_from_list_loop T value 0 (values_ this) this.
Proof.
  intros Htype. unfold remove_from_list. step_method.
  destruct (option_type_eq_dec (get_enum_type T) (type_ this));
    [reflexivity | contradiction].
Qed.

Lemma homogeneous_of_type (T : ValueType) (this : option) :
  homogeneous this ->
  get_enum_type T = type_ this ->
  Forall (fun cell => holder_type cell = get_enum_type T) (values_ this).
Proof.
  unfold homogeneous. intros Hhom Htype. rewrite Htype. exact Hhom.
Qed.

(** C7: [remove_from_list(value)] throws [bad_cast_exception] and leaves
    the sequence as it is when the kind of [value] differs from the
    option's type.  On an option of the kind of [value] that satisfies
    the data-model invariant, it removes the first element [v] of the
    sequence with [v == value], wherever it stands, and nothing else;
    when no element equals [value] the sequence is left as it is. *)
Theorem remove_from_list_spec (T : ValueType) (value : value_of T)
  (this : option) :
  (get_enum_type T <> type_ this ->
   remove_from_list T value this
     = (thrown (bad_cast_exception cannot_cast), this)) /\
  (homogeneous this ->
   get_enum_type T = type_ this ->
   (forall pre v post,
       values_ this = pre ++ option_value T v :: post ->
       (forall v', In (option_value T v') pre ->
                   value_eqb T v' value = false) ->
       value_eqb T v value = true ->
       remove_from_list T value this
         = (returned tt, with_values this (pre ++ post))) /\
   ((forall v', In (option_value T v') (values_ this) ->
                value_eqb T v' value = false) ->
    remove_from_list T value this = (returned tt, this))).
Proof.
  split; [apply remove_from_list_other_type |].
  intros Hhom Htype.
  pose proof (homogeneous_of_type T this Hhom Htype) as Hcells.
  rewrite remove_from_list_same_type by exact Htype.
  split.
  - intros pre v post Hvalues Hno Hv.
    rewrite Hvalues at 1.
    apply (remove_from_list_loop_first T value pre [] post v this);
      auto.
    rewrite Hvalues in Hcells. apply Forall_app in Hcells. tauto.
  - intros Hno. apply remove_from_list_loop_absent; assumption.
Qed.

Lemma remove_from_list_spec_witness :
  let cell := option_value string_ini_t in
  let this :=
    mk_option "ports" string_e
      [cell "80"; cell "443"; cell "8080"; cell "443"] None in
  remove_from_list signed_ini_t 443%Z this
    = (thrown (bad_cast_exception cannot_cast), this) /\
  remove_from_list string_ini_t "443" this
    = (returned tt, with_values this [cell "80"; cell "8080"; cell "443"]) /\
  remove_from_list string_ini_t "22" this = (returned tt, this).
Proof.
  intros cell this.
  assert (Hhom : homogeneous this) by (apply homogeneousb_spec; reflexivity).
  split; [| split].
  - apply (proj1 (remove_from_list_spec signed_ini_t 443%Z this)).
    discriminate.
  - apply (proj1 (proj2 (remove_from_list_spec string_ini_t "443" this)
                    Hhom eq_refl)
             [cell "80"] "443" [cell "8080"; cell "443"]).
    + reflexivity.
    + intros v' [Hin | []]. apply option_value_inj in Hin.
      subst v'. reflexivity.
    + reflexivity.
  - apply (proj2 (proj2 (remove_from_list_spec string_ini_t "22" this)
                    Hhom eq_refl)).
    intros v' Hin. simpl in Hin.
    destruct Hin as [Hin | [Hin | [Hin | [Hin | []]]]];
      apply option_value_inj in Hin; subst v'; reflexivity.
Defined.

(** C10: in [remove_from_list<K>(value)] on an option that satisfies the
    data-model invariant, once the test of [K] against the option's type
    has passed, the cast of every cell of the sequence to
    [option_value<K>] gives a cell and not the null pointer, so that the
    loop dereferences no null pointer and the call returns. *)
Theorem remove_from_list_cast_not_null (T : ValueType) (value : value_of T)
  (this : option) :
  homogeneous this ->
  get_enum_type T = type_ this ->
  Forall (fun cell => exists v, dynamic_cast T cell = Some v) (values_ this) /\
  fst (remove_from_list T value this) = returned tt.
Proof.
  intros Hhom Htype.
  pose proof (homogeneous_of_type T this Hhom Htype) as Hcells.
  split.
  - apply Forall_forall. intros cell Hin.
    rewrite Forall_forall in Hcells.
    destruct (dynamic_cast_of_type T cell (Hcells cell Hin)) as (v & _ & Hv).
    exists v. exact Hv.
  - rewrite remove_from_list_same_type by exact Htype.
    apply remove_from_list_loop_returns. exact Hcells.
Qed.

Lemma remove_from_list_cast_not_null_witness :
  let this :=
    mk_option "ratio" float_e
      [option_value float_ini_t 1.5%float; option_value float_ini_t nan]
      None in
  Forall (fun cell => exists v, dynamic_cast float_ini_t cell = Some v)
    (values_ this) /\
  fst (remove_from_list float_ini_t nan this) = returned tt.
Proof.
  intros this. apply (remove_from_list_cast_not_null float_ini_t nan this).
  - apply homogeneousb_spec. reflexivity.
  - reflexivity.
Defined.

(** Without the invariant the cast can give the null pointer: a string
    cell in an option tagged as boolean is dereferenced as a boolean
    cell. *)
Example remove_from_list_mixed_cells :
  fst (remove_from_list boolean_ini_t true
         (mk_option "flag" boolean_e [option_value string_ini_t "yes"] None))
    = null_dereference.
Proof. reflexivity. Qed.

(** ** Failing calls *)

Lemma get_list_loop_state (T : ValueType) (rest : list option_holder) :
  forall (results : list (value_of T)) (this : option),
    snd (get_list_loop T rest results this) = this.
Proof.
  induction rest as [| cell rest IH]; intros results this; simpl.
  - reflexivity.
  - destruct (dynamic_cast T cell) as [v |]; [apply IH | reflexivity].
Qed.

Lemma get_list_state (T : ValueType) (this : option) :
  snd (get_list T this) = this.
Proof.
  unfold get_list. step_method.
  destruct (empty (values_ this)); [reflexivity | apply get_list_loop_state].
Qed.

(** C8: when [get_list], [add_to_list] (either overload) or
    [remove_from_list] throws, the option (type tag and value sequence,
    and its name and schema too) is what it was before the call. *)
Theorem thrown_leaves_option (this : option) (e : exception) :
  (forall T : ValueType,
      fst (get_list T this) = thrown e -> snd (get_list T this) = this) /\
  (forall (T : ValueType) (value : value_of T),
      fst (add_to_list T value this) = thrown e ->
      snd (add_to_list T value this) = this) /\
  (forall (T : ValueType) (value : value_of T) (position : size_t),
      fst (add_to_list_at T value position this) = thrown e ->
      snd (add_to_list_at T value position this) = this) /\
  (forall (T : ValueType) (value : value_of T),
      fst (remove_from_list T value this) = thrown e ->
      snd (remove_from_list T value this) = this).
Proof.
  repeat split.
  - intros T _. apply get_list_state.
  - intros T value.
    destruct (option_type_eq_dec (get_enum_type T) (type_ this)) as [Ht | Ht].
    + rewrite add_to_list_same_type by auto. discriminate.
    + rewrite add_to_list_other_type by exact Ht. reflexivity.
  - intros T value position.
    destruct (option_type_eq_dec (get_enum_type T) (type_ this)) as [Ht | Ht].
    + destruct (N.ltb_spec (size (values_ this)) position) as [Hgt | Hle].
      * rewrite add_to_list_at_out_of_range by assumption.
        reflexivity.
      * rewrite add_to_list_at_in_range by assumption. discriminate.
    + rewrite add_to_list_at_other_type by exact Ht. reflexivity.
  - intros T value.
    destruct (option_type_eq_dec (get_enum_type T) (type_ this)) as [Ht | Ht].
    + rewrite remove_from_list_same_type by exact Ht. intros Hthrown.
      exfalso. exact (remove_from_list_loop_not_thrown T value _ _ _ _ Hthrown).
    + rewrite remove_from_list_other_type by exact Ht. reflexivity.
Qed.

Lemma thrown_leaves_option_witness :
  let this :=
    mk_option "ports" string_e
      [option_value string_ini_t "80"; option_value string_ini_t "443"]
      None in
  snd (get_list signed_ini_t this) = this /\
  snd (add_to_list signed_ini_t 8080%Z this) = this /\
  snd (add_to_list_at signed_ini_t 8080%Z 1%N this) = this /\
  snd (add_to_list_at string_ini_t "8080" 3%N this) = this /\
  snd (remove_from_list signed_ini_t 80%Z this) = this.
Proof.
  intros this.
  pose proof (thrown_leaves_option this (bad_cast_exception cannot_cast))
    as (Hget & Hadd & Hadd_at & Hremove).
  pose proof (thrown_leaves_option this (not_found_exception 3%N))
    as (_ & _ & Hadd_at' & _).
  split; [apply Hget; reflexivity |].
  split; [apply Hadd; reflexivity |].
  split; [apply Hadd_at; reflexivity |].
  split; [apply Hadd_at'; reflexivity |].
  apply Hremove; reflexivity.
Defined.

(** ** [set_list] step by step *)

Lemma set_list_spec_fold (T : ValueType) (list : list (value_of T)) :
  forall o : option,
    fold_left
      (fun o item =>
         with_values o (push_back (values_ o) (option_value T item)))
      list o
      = with_values o (values_ o ++ map (option_value T) list).
Proof.
  induction list as [| item list IH]; intros o; simpl.
  - rewrite app_nil_r. symmetry. apply with_values_same.
  - rewrite IH. unfold with_values, push_back. simpl.
    rewrite <- app_assoc. reflexivity.
Qed.

Lemma remove_from_list_pos_run (position : size_t) (this : option) :
  remove_from_list_pos position this
    = if (size (values_ this) <=? position)%N
      then (thrown (not_found_exception position), this)
      else (returned tt,
            with_values this (vector_erase (values_ this) (N.to_nat position))).
Proof.
  unfold remove_from_list_pos. step_method.
  destruct (size (values_ this) <=? position)%N; reflexivity.
Qed.

(** The type after a call of [call]. *)
Lemma perform_type_ (c : call) (this : option) :
  type_ (snd (perform c this))
    = match c with
      | call_set_list T _ => get_enum_type T
      | _ => type_ this
      end.
Proof.
  destruct c as [T list | T value | T value position | T value | position];
    simpl perform.
  - rewrite set_list_run. reflexivity.
  - destruct (option_type_eq_dec (get_enum_type T) (type_ this)) as [Ht | Ht].
    + rewrite add_to_list_same_type by auto. reflexivity.
    + rewrite add_to_list_other_type by exact Ht. reflexivity.
  - unfold add_to_list_at. step_method.
    destruct (option_type_eq_dec (get_enum_type T) (type_ this));
      [| reflexivity].
    destruct (size (values_ this) <? position)%N; reflexivity.
  - destruct (option_type_eq_dec (get_enum_type T) (type_ this)) as [Ht | Ht].
    + rewrite remove_from_list_same_type by exact Ht.
      destruct (remove_from_list_loop_state T value (values_ this) 0 this)
        as [-> | [k ->]]; reflexivity.
    + rewrite remove_from_list_other_type by exact Ht. reflexivity.
  - rewrite remove_from_list_pos_run.
    destruct (size (values_ this) <=? position)%N; reflexivity.
Qed.

(** The type after [set]. *)
Lemma set_type_ (unspecified : open_assignment) (T : ValueType)
  (value : value_of T) (this : option) :
  type_ (snd (set unspecified T value this)) = type_ this.
Proof.
  unfold set, operator_assign.
  destruct (values_ this) as [| slot0 rest].
  - destruct (unspecified T value this). reflexivity.
  - destruct (option_type_eq_dec (get_enum_type T) (type_ this));
      [reflexivity |].
    destruct (unspecified T value this). reflexivity.
Qed.

(** C5: [set_list<K>(list)] clears the value sequence, retags the
    option's type to [K] and appends the elements of [list] in order,
    each by [add_to_list]; it returns.  Of the calls of the typed
    interface that change an option ([set], [set_list], the two
    [add_to_list], [remove_from_list], [remove_from_list_pos]) it is the
    only one after which the type tag can differ from what it was, and
    this whatever the assignment overloads behind [set] do where the
    specification leaves them open. *)
Theorem set_list_steps_and_retag (unspecified : open_assignment) :
  (forall (T : ValueType) (list : list (value_of T)) (this : option),
      set_list T list this = (returned tt, set_list_spec T list this) /\
      set_list T list this
        = for_each list (fun item => add_to_list T item)
            (with_type (with_values this []) (get_enum_type T)) /\
      type_ (snd (set_list T list this)) = get_enum_type T /\
      values_ (snd (set_list T list this)) = map (option_value T) list) /\
  (forall (c : typed_call) (this : option),
      type_ (snd (perform_typed unspecified c this))
        = match c with
          | call_write (call_set_list T _) => get_enum_type T
          | _ => type_ this
          end) /\
  (exists (T : ValueType) (list : list (value_of T)) (this : option),
      type_ (snd (set_list T list this)) <> type_ this).
Proof.
  split; [| split].
  - intros T list this. rewrite set_list_run. simpl snd.
    split; [| split; [| split; reflexivity]].
    + unfold set_list_spec. rewrite set_list_spec_fold. reflexivity.
    + rewrite for_each_add_to_list by reflexivity. reflexivity.
  - intros [T value | c] this; simpl perform_typed.
    + apply set_type_.
    + rewrite perform_type_. destruct c; reflexivity.
  - exists boolean_ini_t, [true], (mk_option "flag" string_e [] None).
    discriminate.
Qed.

(** A run of [set]: on an option that holds strings the first value is
    replaced and read back, and the type stays; with a value of another
    kind the recommended behaviour throws and leaves the option. *)
Example set_scenario :
  let cell := option_value string_ini_t in
  let ports := mk_option "ports" string_e [cell "80"; cell "443"] None in
  set fail_fast string_ini_t "8080" ports
    = (returned tt, with_values ports [cell "8080"; cell "443"]) /\
  fst (get string_ini_t (snd (set fail_fast string_ini_t "8080" ports)))
    = returned "8080" /\
  set fail_fast signed_ini_t 8080%Z ports
    = (thrown (bad_cast_exception cannot_cast), ports).
Proof. repeat split. Qed.

(** ** [set_list] does not fail *)

(** C9: for every supported kind [K] and every list, the empty one
    included, [set_list<K>(list)] returns.  Whichever element [item] of
    the list is next, the option that the earlier steps of [set_list]
    have left has type [K], so that [add_to_list(item)] does not take
    its [bad_cast_exception] branch but returns; in the end the sequence
    holds as many values as the list. *)
Theorem set_list_returns (T : ValueType) (list : list (value_of T))
  (this : option) :
  fst (set_list T list this) = returned tt /\
  List.length (values_ (snd (set_list T list this))) = List.length list /\
  (forall (done : Datatypes.list (value_of T)) (item : value_of T)
          (todo : Datatypes.list (value_of T)),
      list = done ++ item :: todo ->
      let reached := snd (set_list T done this) in
      type_ reached = get_enum_type T /\
      fst (add_to_list T item reached) = returned tt /\
      set_list T list this
        = (add_to_list T item ;;
           for_each todo (fun item' => add_to_list T item')) reached).
Proof.
  rewrite set_list_run. simpl fst. simpl snd. simpl values_.
  split; [reflexivity |].
  split; [apply length_map |].
  intros done item todo ->. rewrite !set_list_run. simpl snd.
  split; [reflexivity |].
  split; [rewrite add_to_list_same_type by reflexivity; reflexivity |].
  unfold bind at 1.
  rewrite add_to_list_same_type by reflexivity.
  rewrite for_each_add_to_list by reflexivity.
  unfold with_values, push_back. simpl.
  rewrite map_app, <- app_assoc. reflexivity.
Qed.

Lemma set_list_returns_witness :
  let this :=
    mk_option "ports" signed_e [option_value signed_ini_t 22%Z] None in
  let reached := snd (set_list string_ini_t ["80"] this) in
  fst (set_list string_ini_t ["80"; "443"] this) = returned tt /\
  type_ reached = string_e /\
  fst (add_to_list string_ini_t "443" reached) = returned tt.
Proof.
  intros this reached.
  pose proof (set_list_returns string_ini_t ["80"; "443"] this)
    as (Hreturns & _ & Hsteps).
  destruct (Hsteps ["80"] "443" [] eq_refl) as (Htype & Hadd & _).
  split; [exact Hreturns |].
  split; [exact Htype | exact Hadd].
Defined.

(** ** The invariant is kept *)

Lemma homogeneous_with_values (this : option) (vs : list option_holder) :
  Forall (fun cell => holder_type cell = type_ this) vs ->
  homogeneous (with_values this vs).
Proof. intros H. exact H. Qed.

(** C4: if every cell of an option is of the kind of its type tag (as it
    is when there is no cell), this is still so after [set_list], after
    [add_to_list] at the end and at a position, after [remove_from_list]
    and after [remove_from_list_pos], whether the call returns or
    throws. *)
Theorem perform_keeps_homogeneous (c : call) (this : option) :
  homogeneous this -> homogeneous (snd (perform c this)).
Proof.
  intros Hhom.
  destruct c as [T list | T value | T value position | T value | position];
    simpl perform.
  - rewrite set_list_run. unfold homogeneous. simpl.
    apply Forall_forall. intros cell Hin.
    apply in_map_iff in Hin. destruct Hin as (v & <- & _). reflexivity.
  - destruct (option_type_eq_dec (get_enum_type T) (type_ this)) as [Ht | Ht].
    + rewrite add_to_list_same_type by auto. simpl snd.
      apply homogeneous_with_values. unfold push_back.
      apply Forall_app. split; [exact Hhom |].
      constructor; [exact Ht | constructor].
    + rewrite add_to_list_other_type by exact Ht. exact Hhom.
  - destruct (option_type_eq_dec (get_enum_type T) (type_ this)) as [Ht | Ht].
    + destruct (N.ltb_spec (size (values_ this)) position) as [Hgt | Hle].
      * rewrite add_to_list_at_out_of_range by assumption.
        exact Hhom.
      * rewrite add_to_list_at_in_range by assumption. simpl snd.
        apply homogeneous_with_values.
        apply Forall_vector_insert; [exact Ht | exact Hhom].
    + rewrite add_to_list_at_other_type by exact Ht. exact Hhom.
  - destruct (option_type_eq_dec (get_enum_type T) (type_ this)) as [Ht | Ht].
    + rewrite remove_from_list_same_type by exact Ht.
      destruct (remove_from_list_loop_state T value (values_ this) 0 this)
        as [-> | [k ->]]; [exact Hhom |].
      apply homogeneous_with_values, Forall_vector_erase, Hhom.
    + rewrite remove_from_list_other_type by exact Ht. exact Hhom.
  - rewrite remove_from_list_pos_run.
    destruct (size (values_ this) <=? position)%N; [exact Hhom |].
    apply homogeneous_with_values, Forall_vector_erase, Hhom.
Qed.

Lemma perform_keeps_homogeneous_witness :
  let cell := option_value string_ini_t in
  let this := mk_option "ports" string_e [cell "80"; cell "443"] None in
  homogeneous (snd (perform (call_set_list signed_ini_t [80%Z; 443%Z]) this)) /\
  homogeneous (snd (perform (call_add_to_list string_ini_t "8080") this)) /\
  homogeneous (snd (perform (call_add_to_list_at string_ini_t "22" 0%N) this)) /\
  homogeneous (snd (perform (call_remove_from_list string_ini_t "80") this)) /\
  homogeneous (snd (perform (call_remove_from_list_pos 1%N) this)).
Proof.
  intros cell this.
  assert (Hhom : homogeneous this) by (apply homogeneousb_spec; reflexivity).
  repeat split; apply perform_keeps_homogeneous; exact Hhom.
Defined.

(** ** A run of the interface *)

(** The option [ports] with the strings 80 and 443: the list is read,
    8080 is appended, the list is read again, the element at position 0
    is removed, the list is read once more, and a read as signed integer
    fails. *)
Example ports_scenario :
  let cell := option_value string_ini_t in
  let ports := mk_option "ports" string_e [cell "80"; cell "443"] None in
  let run : method _ :=
    (l1 <- get_list string_ini_t ;;
     add_to_list string_ini_t "8080" ;;
     l2 <- get_list string_ini_t ;;
     remove_from_list_pos 0%N ;;
     l3 <- get_list string_ini_t ;;
     ret (l1, l2, l3))%method in
  fst (run ports)
    = returned (["80"; "443"], ["80"; "443"; "8080"], ["443"; "8080"]) /\
  fst (get signed_ini_t (snd (run ports)))
    = thrown (bad_cast_exception cannot_cast).
Proof. split; reflexivity. Qed.

(** ** Reads, for every content of the option *)

Lemma dynamic_cast_Some_inv (T : ValueType) (cell : option_holder)
  (v : value_of T) :
  dynamic_cast T cell = Some v -> cell = option_value T v.
Proof.
  destruct cell as [T0 v0]. unfold dynamic_cast.
  destruct (ValueType_eq_dec T0 T) as [e | _]; [| discriminate].
  destruct e. simpl. intros [= ->]. reflexivity.
Qed.

Lemma cells_of_type (T : ValueType) (cells : list option_holder) :
  Forall (fun cell => holder_type cell = get_enum_type T) cells ->
  exists l, cells = map (option_value T) l.
Proof.
  induction 1 as [| cell cells Hcell _ [l ->]].
  - exists []. reflexivity.
  - destruct (dynamic_cast_of_type T cell Hcell) as (v & -> & _).
    exists (v :: l). reflexivity.
Qed.

Lemma get_list_loop_returned (T : ValueType) (rest : list option_holder) :
  forall (results l : list (value_of T)) (this : option),
    fst (get_list_loop T rest results this) = returned l <->
    exists l', l = results ++ l' /\ rest = map (option_value T) l'.
Proof.
  induction rest as [| cell rest IH]; intros results l this; simpl.
  - split.
    + intros [= <-]. exists []. rewrite app_nil_r. split; reflexivity.
    + intros (l' & -> & Hl').
      destruct l'; [rewrite app_nil_r; reflexivity | discriminate].
  - destruct (dynamic_cast T cell) as [v |] eqn:Hcast.
    + apply dynamic_cast_Some_inv in Hcast. subst cell.
      rewrite IH. unfold push_back. split.
      * intros (l' & -> & ->). exists (v :: l').
        rewrite <- app_assoc. split; reflexivity.
      * intros (l' & -> & Hl'). destruct l' as [| v' l']; [discriminate |].
        simpl in Hl'.
        assert (Hcell : option_value T v = option_value T v') by congruence.
        assert (Hrest : rest = map (option_value T) l') by congruence.
        apply option_value_inj in Hcell. subst v' rest.
        exists l'. rewrite <- app_assoc. split; reflexivity.
    + split; [discriminate |].
      intros (l' & _ & Hl'). destruct l' as [| v' l']; [discriminate |].
      simpl in Hl'. injection Hl' as -> _.
      rewrite dynamic_cast_same in Hcast. discriminate.
Qed.

Lemma get_list_loop_bad_cast (T : ValueType) (rest : list option_holder) :
  forall (results : list (value_of T)) (this : option),
    fst (get_list_loop T rest results this)
      = thrown (bad_cast_exception cannot_cast) <->
    Exists (fun cell => holder_type cell <> get_enum_type T) rest.
Proof.
  induction rest as [| cell rest IH]; intros results this; simpl.
  - split; [discriminate | intros H; inversion H].
  - rewrite Exists_cons.
    destruct (option_type_eq_dec (holder_type cell) (get_enum_type T))
      as [Hcell | Hcell].
    + destruct (dynamic_cast_of_type T cell Hcell) as (v & _ & ->).
      rewrite IH. tauto.
    + rewrite (dynamic_cast_not_of_type T cell Hcell). simpl. tauto.
Qed.

Lemma get_list_run (T : ValueType) (this : option) :
  get_list T this
    = if empty (values_ this)
      then (thrown (not_found_exception 0%N), this)
      else get_list_loop T (values_ this) [] this.
Proof.
  unfold get_list. step_method. destruct (empty (values_ this)); reflexivity.
Qed.

(** X1: on an option that satisfies the data-model invariant and has at
    least one value, the reads of the kind of the type tag succeed:
    [get<K>()] returns the first value and [get_list<K>()] returns all
    the values in their order; the option is left as it was. *)
Theorem read_of_own_kind (T : ValueType) (this : option) :
  homogeneous this ->
  values_ this <> [] ->
  get_enum_type T = type_ this ->
  exists v l,
    values_ this = map (option_value T) (v :: l) /\
    get T this = (returned v, this) /\
    get_list T this = (returned (v :: l), this).
Proof.
  intros Hhom Hne Htype.
  destruct (cells_of_type T (values_ this)
              (homogeneous_of_type T this Hhom Htype)) as [[| v l] Hvalues];
    [contradiction |].
  exists v, l. split; [exact Hvalues |]. split.
  - unfold get. step_method. rewrite Hvalues. simpl.
    rewrite dynamic_cast_same. reflexivity.
  - apply get_list_same_type; [discriminate | exact Hvalues].
Qed.

Lemma read_of_own_kind_witness :
  let this :=
    mk_option "limits" signed_e
      [option_value signed_ini_t (-1)%Z; option_value signed_ini_t 7%Z] None in
  exists v l,
    values_ this = map (option_value signed_ini_t) (v :: l) /\
    get signed_ini_t this = (returned v, this) /\
    get_list signed_ini_t this = (returned (v :: l), this).
Proof.
  intros this. apply (read_of_own_kind signed_ini_t this).
  - apply homogeneousb_spec. reflexivity.
  - discriminate.
  - reflexivity.
Defined.

(** X2: whatever the option holds, [get_list<K>()] returns a list [l]
    exactly when the sequence is not empty and its cells are, in order,
    cells of class [option_value<K>] with the values [l]; it never
    changes the option; and when it returns [l], [get<K>()] returns the
    first element of [l]. *)
Theorem get_list_returns_iff (T : ValueType) (l : list (value_of T))
  (this : option) :
  (fst (get_list T this) = returned l <->
   l <> [] /\ values_ this = map (option_value T) l) /\
  snd (get_list T this) = this /\
  (fst (get_list T this) = returned l ->
   exists v l', l = v :: l' /\ get T this = (returned v, this)).
Proof.
  assert (Hiff : fst (get_list T this) = returned l <->
                 l <> [] /\ values_ this = map (option_value T) l).
  { rewrite get_list_run.
    destruct (values_ this) as [| cell cells] eqn:Hvalues;
      unfold empty.
    - split; [discriminate |].
      intros [Hne Hl]. destruct l; [contradiction | discriminate].
    - rewrite get_list_loop_returned. split.
      + intros (l' & -> & Hl'). simpl. split; [| exact Hl'].
        destruct l'; discriminate.
      + intros [_ Hl]. exists l. split; [reflexivity | exact Hl]. }
  split; [exact Hiff |]. split; [apply get_list_state |].
  intros Hret. apply Hiff in Hret. destruct Hret as [Hne Hvalues].
  destruct l as [| v l']; [contradiction |].
  exists v, l'. split; [reflexivity |].
  unfold get. step_method. rewrite Hvalues. simpl.
  rewrite dynamic_cast_same. reflexivity.
Qed.

Lemma get_list_returns_iff_witness :
  let this :=
    mk_option "flags" boolean_e
      [option_value boolean_ini_t true; option_value boolean_ini_t false]
      None in
  exists v l',
    [true; false] = v :: l' /\ get boolean_ini_t this = (returned v, this).
Proof.
  intros this.
  apply (proj2 (proj2 (get_list_returns_iff boolean_ini_t [true; false] this))).
  reflexivity.
Defined.

(** X3: on an option with at least one value, [get_list<K>()] throws
    [bad_cast_exception] exactly when some cell of the sequence, at
    whatever position, is not of kind [K]; the values read before that
    cell are not returned and the option is left as it was. *)
Theorem get_list_bad_cast_iff (T : ValueType) (this : option) :
  values_ this <> [] ->
  (get_list T this = (thrown (bad_cast_exception cannot_cast), this) <->
   Exists (fun cell => holder_type cell <> get_enum_type T) (values_ this)).
Proof.
  intros Hne.
  assert (Hshape : get_list T this
                   = (fst (get_list_loop T (values_ this) [] this), this)).
  { rewrite get_list_run.
    destruct (values_ this) as [| cell cells] eqn:Hvalues;
      [contradiction | unfold empty].
    rewrite <- (get_list_loop_state T (cell :: cells) [] this) at 3.
    destruct (get_list_loop T (cell :: cells) [] this); reflexivity. }
  rewrite Hshape, <- (get_list_loop_bad_cast T (values_ this) [] this).
  split; [intros [= ->]; reflexivity | intros ->; reflexivity].
Qed.

Lemma get_list_bad_cast_iff_witness :
  let this :=
    mk_option "mixed" string_e
      [option_value string_ini_t "80"; option_value signed_ini_t 443%Z]
      None in
  get_list string_ini_t this
    = (thrown (bad_cast_exception cannot_cast), this).
Proof.
  intros this.
  apply (proj2 (get_list_bad_cast_iff string_ini_t this ltac:(discriminate))).
  apply Exists_cons_tl, Exists_cons_hd. discriminate.
Defined.

(** ** Writes followed by reads *)

Lemma vector_insert_firstn_skipn {A : Type} (v : list A) (x : A) :
  forall position : nat,
    position <= List.length v ->
    vector_insert v position x = firstn position v ++ x :: skipn position v.
Proof.
  induction v as [| y v IH]; intros [| p] Hle; simpl in Hle;
    try lia; try reflexivity.
  simpl. rewrite IH by lia. reflexivity.
Qed.

Lemma vector_insert_front {A : Type} (v : list A) (x : A) :
  vector_insert v 0 x = x :: v.
Proof. destruct v; reflexivity. Qed.

Lemma with_values_with_values (this : option) (vs vs' : list option_holder) :
  with_values (with_values this vs) vs' = with_values this vs'.
Proof. reflexivity. Qed.

(** X4: let the option hold the values [l] of kind [K] ([l] may be
    empty) and be of type [K].  After [add_to_list<K>(v)],
    [get_list<K>()] returns [l] followed by [v]. *)
Theorem add_to_list_get_list (T : ValueType) (l : list (value_of T))
  (v : value_of T) (this : option) :
  type_ this = get_enum_type T ->
  values_ this = map (option_value T) l ->
  fst (add_to_list T v this) = returned tt /\
  fst (get_list T (snd (add_to_list T v this))) = returned (l ++ [v]).
Proof.
  intros Htype Hvalues. rewrite add_to_list_same_type by exact Htype.
  split; [reflexivity |]. simpl snd.
  rewrite (get_list_same_type T (l ++ [v])); [reflexivity | |].
  - destruct l; discriminate.
  - unfold with_values, push_back. simpl.
    rewrite Hvalues, map_app. reflexivity.
Qed.

Lemma add_to_list_get_list_witness :
  let this := mk_option "ports" unsigned_e [] None in
  fst (add_to_list unsigned_ini_t 80%N this) = returned tt /\
  fst (get_list unsigned_ini_t (snd (add_to_list unsigned_ini_t 80%N this)))
    = returned [80%N].
Proof.
  intros this.
  apply (add_to_list_get_list unsigned_ini_t [] 80%N this); reflexivity.
Defined.

(** X5: let the option hold the values [l] of kind [K] and be of type
    [K], and let [p] be at most the number of values.  After
    [add_to_list<K>(v, p)], [get_list<K>()] returns the first [p]
    elements of [l], then [v], then the other elements of [l]. *)
Theorem add_to_list_at_get_list (T : ValueType) (l : list (value_of T))
  (v : value_of T) (p : size_t) (this : option) :
  type_ this = get_enum_type T ->
  values_ this = map (option_value T) l ->
  (p <= size l)%N ->
  fst (add_to_list_at T v p this) = returned tt /\
  fst (get_list T (snd (add_to_list_at T v p this)))
    = returned (firstn (N.to_nat p) l ++ v :: skipn (N.to_nat p) l).
Proof.
  intros Htype Hvalues Hp.
  assert (Hp' : (p <= size (values_ this))%N)
    by (rewrite Hvalues; unfold size in *; rewrite length_map; exact Hp).
  rewrite add_to_list_at_in_range by auto.
  split; [reflexivity |]. simpl snd.
  rewrite (get_list_same_type T
             (firstn (N.to_nat p) l ++ v :: skipn (N.to_nat p) l));
    [reflexivity | |].
  - destruct (firstn (N.to_nat p) l); discriminate.
  - unfold with_values. simpl.
    rewrite vector_insert_firstn_skipn by (unfold size in Hp'; lia).
    rewrite Hvalues, map_app, firstn_map. simpl. rewrite skipn_map.
    reflexivity.
Qed.

Lemma add_to_list_at_get_list_witness :
  let this :=
    mk_option "ports" string_e
      [option_value string_ini_t "80"; option_value string_ini_t "443"]
      None in
  fst (add_to_list_at string_ini_t "8080" 1%N this) = returned tt /\
  fst (get_list string_ini_t (snd (add_to_list_at string_ini_t "8080" 1%N this)))
    = returned ["80"; "8080"; "443"].
Proof.
  intros this.
  apply (add_to_list_at_get_list string_ini_t ["80"; "443"] "8080" 1%N this);
    reflexivity || (vm_compute; discriminate).
Defined.

(** X6: on an option of type [K], whatever it holds,
    [add_to_list<K>(v, 0)] returns, and the next [get<K>()] returns
    [v]. *)
Theorem add_to_list_at_front_get (T : ValueType) (v : value_of T)
  (this : option) :
  get_enum_type T = type_ this ->
  fst (add_to_list_at T v 0%N this) = returned tt /\
  fst (get T (snd (add_to_list_at T v 0%N this))) = returned v.
Proof.
  intros Htype.
  rewrite add_to_list_at_in_range by (auto; unfold size; lia).
  split; [reflexivity |]. simpl snd. unfold get. step_method.
  rewrite vector_insert_front, dynamic_cast_same. reflexivity.
Qed.

Lemma add_to_list_at_front_get_witness :
  let this :=
    mk_option "ratio" float_e [option_value float_ini_t 0.5%float] None in
  fst (add_to_list_at float_ini_t 2%float 0%N this) = returned tt /\
  fst (get float_ini_t (snd (add_to_list_at float_ini_t 2%float 0%N this)))
    = returned 2%float.
Proof.
  intros this. apply (add_to_list_at_front_get float_ini_t 2%float this).
  reflexivity.
Defined.

(** X7: what [set_list<K>(list)] leaves depends on the option's name and
    schema only, which it keeps: the type and the values the option had
    before play no part.  In particular a [set_list] that follows
    another [set_list] gives what it gives alone. *)
Theorem set_list_forgets (T : ValueType) (list : list (value_of T))
  (this : option) :
  name_ (snd (set_list T list this)) = name_ this /\
  option_schema_ (snd (set_list T list this)) = option_schema_ this /\
  (forall this' : option,
      name_ this' = name_ this ->
      option_schema_ this' = option_schema_ this ->
      set_list T list this' = set_list T list this) /\
  (forall (T' : ValueType) (list' : Datatypes.list (value_of T')),
      set_list T list (snd (set_list T' list' this)) = set_list T list this).
Proof.
  rewrite set_list_run. simpl. repeat split.
  - intros this' Hname Hschema. rewrite set_list_run, Hname, Hschema.
    reflexivity.
  - intros T' list'. rewrite !set_list_run. reflexivity.
Qed.

Lemma set_list_forgets_witness :
  set_list boolean_ini_t [true]
    (mk_option "flag" string_e [option_value string_ini_t "yes"] None)
  = set_list boolean_ini_t [true] (mk_option "flag" boolean_e [] None).
Proof.
  apply (proj1 (proj2 (proj2
           (set_list_forgets boolean_ini_t [true]
              (mk_option "flag" boolean_e [] None))))); reflexivity.
Defined.

(** X8: after [set_list<K>] of a list that begins with [v], whatever
    the option was before, [get<K>()] returns [v] and [get<K'>()] for
    every other kind [K'] throws [bad_cast_exception]. *)
Theorem set_list_get (T : ValueType) (v : value_of T)
  (l : list (value_of T)) (this : option) :
  fst (get T (snd (set_list T (v :: l) this))) = returned v /\
  (forall T' : ValueType,
      T' <> T ->
      fst (get T' (snd (set_list T (v :: l) this)))
        = thrown (bad_cast_exception cannot_cast)).
Proof.
  rewrite set_list_run. simpl snd. split.
  - unfold get. step_method. rewrite dynamic_cast_same. reflexivity.
  - intros T' Hne. unfold get. step_method.
    rewrite dynamic_cast_other by congruence. reflexivity.
Qed.

Lemma set_list_get_witness :
  let this :=
    mk_option "ports" string_e [option_value string_ini_t "80"] None in
  fst (get string_ini_t (snd (set_list signed_ini_t [80%Z; 443%Z] this)))
    = thrown (bad_cast_exception cannot_cast).
Proof.
  intros this.
  apply (proj2 (set_list_get signed_ini_t 80%Z [443%Z] this) string_ini_t).
  discriminate.
Defined.

(** ** More on removal by value *)

Lemma equals_value_option_value (T : ValueType) (value v : value_of T) :
  equals_value T value (option_value T v) = value_eqb T v value.
Proof. unfold equals_value. rewrite dynamic_cast_same. reflexivity. Qed.

(** A list has no element that passes a test, or a first one. *)
Lemma first_passing {A : Type} (f : A -> bool) (l : list A) :
  (forall x, In x l -> f x = false) \/
  (exists pre x post,
      l = pre ++ x :: post /\ f x = true /\
      (forall y, In y pre -> f y = false)).
Proof.
  induction l as [| a l [Hnone | (pre & x & post & -> & Hx & Hpre)]].
  - left. intros x [].
  - destruct (f a) eqn:Ha.
    + right. exists [], a, l. repeat split; [exact Ha | intros y []].
    + left. intros x [<- | Hin]; [exact Ha | apply Hnone, Hin].
  - destruct (f a) eqn:Ha.
    + right. exists [], a, (pre ++ x :: post).
      repeat split; [exact Ha | intros y []].
    + right. exists (a :: pre), x, post. repeat split; [exact Hx |].
      intros y [<- | Hin]; [exact Ha | apply Hpre, Hin].
Qed.

Lemma filter_none {A : Type} (f : A -> bool) (l : list A) :
  (forall x, In x l -> f x = false) -> filter f l = [].
Proof.
  induction l as [| a l IH]; intros H; simpl; [reflexivity |].
  rewrite (H a) by (left; reflexivity).
  apply IH. intros x Hin. apply H. right. exact Hin.
Qed.

Lemma existsb_none {A : Type} (f : A -> bool) (l : list A) :
  (forall x, In x l -> f x = false) -> existsb f l = false.
Proof.
  induction l as [| a l IH]; intros H; simpl; [reflexivity |].
  rewrite (H a) by (left; reflexivity).
  apply IH. intros x Hin. apply H. right. exact Hin.
Qed.

(** What [remove_from_list] does on an option of its kind that
    satisfies the invariant, by the two cases of [first_passing]. *)
Lemma remove_from_list_cases (T : ValueType) (value : value_of T)
  (this : option) :
  homogeneous this ->
  get_enum_type T = type_ this ->
  ((forall cell, In cell (values_ this) ->
                 equals_value T value cell = false) /\
   remove_from_list T value this = (returned tt, this)) \/
  (exists pre cell post,
      values_ this = pre ++ cell :: post /\
      equals_value T value cell = true /\
      (forall cell', In cell' pre -> equals_value T value cell' = false) /\
      remove_from_list T value this
        = (returned tt, with_values this (pre ++ post))).
Proof.
  intros Hhom Htype.
  pose proof (homogeneous_of_type T this Hhom Htype) as Hcells.
  rewrite remove_from_list_same_type by exact Htype.
  destruct (first_passing (equals_value T value) (values_ this))
    as [Hnone | (pre & cell & post & Hvalues & Hcell & Hpre)].
  - left. split; [exact Hnone |].
    apply remove_from_list_loop_absent; [exact Hcells |].
    intros v Hin. rewrite <- equals_value_option_value. apply Hnone, Hin.
  - right. exists pre, cell, post.
    split; [exact Hvalues |]. split; [exact Hcell |]. split; [exact Hpre |].
    rewrite Hvalues in Hcells. apply Forall_app in Hcells.
    destruct Hcells as [Hpre_cells Hrest]. inversion Hrest as [| ? ? Hkind _].
    subst. destruct (dynamic_cast_of_type T cell Hkind) as (v & -> & _).
    rewrite equals_value_option_value in Hcell.
    rewrite Hvalues at 1.
    apply (remove_from_list_loop_first T value pre [] post v this);
      auto.
    intros v' Hin. rewrite <- equals_value_option_value. apply Hpre, Hin.
Qed.

(** X9: on an option of the kind of [value] that satisfies the
    data-model invariant, [remove_from_list(value)] returns; the number
    of elements that are [== value] goes down by one (it stays 0 when
    it is 0), the elements that are not [== value] stay all there in
    their order, and the size goes down by one exactly when some
    element was [== value]. *)
Theorem remove_from_list_counts (T : ValueType) (value : value_of T)
  (this : option) :
  homogeneous this ->
  get_enum_type T = type_ this ->
  let after := values_ (snd (remove_from_list T value this)) in
  fst (remove_from_list T value this) = returned tt /\
  List.length (filter (equals_value T value) after)
    = pred (List.length (filter (equals_value T value) (values_ this))) /\
  filter (fun cell => negb (equals_value T value cell)) after
    = filter (fun cell => negb (equals_value T value cell)) (values_ this) /\
  List.length after
    + (if existsb (equals_value T value) (values_ this) then 1 else 0)
    = List.length (values_ this).
Proof.
  intros Hhom Htype after. subst after.
  destruct (remove_from_list_cases T value this Hhom Htype)
    as [[Hnone ->] | (pre & cell & post & Hvalues & Hcell & Hpre & ->)];
    simpl fst; simpl snd.
  - rewrite (filter_none _ _ Hnone), (existsb_none _ _ Hnone). simpl.
    repeat split. lia.
  - simpl values_. rewrite Hvalues.
    rewrite !filter_app. simpl. rewrite Hcell. simpl.
    rewrite existsb_app. simpl. rewrite Hcell, orb_true_r.
    rewrite !length_app. simpl. repeat split; lia.
Qed.

Lemma remove_from_list_counts_witness :
  let cell := option_value signed_ini_t in
  let this :=
    mk_option "limits" signed_e [cell 3%Z; cell 5%Z; cell 3%Z] None in
  let after := values_ (snd (remove_from_list signed_ini_t 3%Z this)) in
  fst (remove_from_list signed_ini_t 3%Z this) = returned tt /\
  List.length (filter (equals_value signed_ini_t 3%Z) after)
    = pred (List.length (filter (equals_value signed_ini_t 3%Z)
                           (values_ this))) /\
  filter (fun cell => negb (equals_value signed_ini_t 3%Z cell)) after
    = filter (fun cell => negb (equals_value signed_ini_t 3%Z cell))
        (values_ this) /\
  List.length after
    + (if existsb (equals_value signed_ini_t 3%Z) (values_ this)
       then 1 else 0)
    = List.length (values_ this).
Proof.
  intros cell this.
  apply (remove_from_list_counts signed_ini_t 3%Z this).
  - apply homogeneousb_spec. reflexivity.
  - reflexivity.
Defined.

(** X10: on an option of the kind of [v] that satisfies the data-model
    invariant, if [v == v] then removing [v] right after adding it gives
    the option back as it was: after [add_to_list(v)] when no element
    was [== v], and after [add_to_list(v, p)] when none of the first [p]
    elements was [== v]. *)
Theorem add_then_remove_restores (T : ValueType) (v : value_of T)
  (this : option) :
  homogeneous this ->
  get_enum_type T = type_ this ->
  value_eqb T v v = true ->
  ((forall v', In (option_value T v') (values_ this) ->
               value_eqb T v' v = false) ->
   remove_from_list T v (snd (add_to_list T v this)) = (returned tt, this)) /\
  (forall p : size_t,
      (p <= size (values_ this))%N ->
      (forall v', In (option_value T v') (firstn (N.to_nat p) (values_ this)) ->
                  value_eqb T v' v = false) ->
      remove_from_list T v (snd (add_to_list_at T v p this))
        = (returned tt, this)).
Proof.
  intros Hhom Htype Hv.
  pose proof (homogeneous_of_type T this Hhom Htype) as Hcells.
  split.
  - intros Hnone. rewrite add_to_list_same_type by auto. simpl snd.
    rewrite remove_from_list_same_type by exact Htype.
    unfold with_values at 2. simpl values_. unfold push_back.
    rewrite (remove_from_list_loop_first T v (values_ this) [] [] v);
      auto.
    rewrite app_nil_r. simpl. f_equal. destruct this; reflexivity.
  - intros p Hp Hnone. rewrite add_to_list_at_in_range by auto. simpl snd.
    rewrite remove_from_list_same_type by exact Htype.
    unfold with_values at 2. simpl values_.
    rewrite vector_insert_firstn_skipn by (unfold size in Hp; lia).
    rewrite (remove_from_list_loop_first T v
               (firstn (N.to_nat p) (values_ this)) []
               (skipn (N.to_nat p) (values_ this)) v); auto.
    + simpl. rewrite firstn_skipn. f_equal. destruct this; reflexivity.
    + rewrite <- (firstn_skipn (N.to_nat p) (values_ this)) in Hcells.
      apply Forall_app in Hcells. tauto.
Qed.

Lemma add_then_remove_restores_witness :
  let cell := option_value string_ini_t in
  let this := mk_option "ports" string_e [cell "80"; cell "443"] None in
  remove_from_list string_ini_t "8080" (snd (add_to_list string_ini_t "8080" this))
    = (returned tt, this) /\
  remove_from_list string_ini_t "443"
    (snd (add_to_list_at string_ini_t "443" 1%N this))
    = (returned tt, this).
Proof.
  intros cell this.
  assert (Hhom : homogeneous this) by (apply homogeneousb_spec; reflexivity).
  split.
  - apply (proj1 (add_then_remove_restores string_ini_t "8080" this
                    Hhom eq_refl eq_refl)).
    intros v' Hin. simpl in Hin.
    destruct Hin as [Hin | [Hin | []]];
      apply option_value_inj in Hin; subst v'; reflexivity.
  - apply (proj2 (add_then_remove_restores string_ini_t "443" this
                    Hhom eq_refl eq_refl) 1%N).
    + vm_compute. discriminate.
    + intros v' Hin. simpl in Hin.
      destruct Hin as [Hin | []].
      apply option_value_inj in Hin. subst v'. reflexivity.
Defined.

(** ** Removal of a floating point number that is not a number *)

(** A floating point number that is not [==] to itself is [==] to no
    floating point number. *)
Lemma float_eqb_nan (x y : float) :
  PrimFloat.eqb y y = false -> PrimFloat.eqb x y = false.
Proof.
  rewrite !FloatAxioms.eqb_spec. unfold SpecFloat.SFeqb.
  destruct (Prim2SF y) as [sy | sy | | sy my ey]; simpl.
  - discriminate.
  - destruct sy; discriminate.
  - intros _. destruct (Prim2SF x); reflexivity.
  - rewrite Z.compare_refl, Pos.compare_cont_refl.
    destruct sy; discriminate.
Qed.

(** X11: [remove_from_list] of a floating point number that is not
    [==] to itself (a NaN) removes nothing from an option of floating
    point numbers that satisfies the data-model invariant, not even a
    NaN that [add_to_list] has just put there. *)
Theorem remove_from_list_nan (value : value_of float_ini_t)
  (this : option) :
  PrimFloat.eqb value value = false ->
  homogeneous this ->
  type_ this = float_e ->
  remove_from_list float_ini_t value this = (returned tt, this) /\
  values_ (snd (remove_from_list float_ini_t value
                  (snd (add_to_list float_ini_t value this))))
    = values_ this ++ [option_value float_ini_t value].
Proof.
  intros Hnan Hhom Htype.
  assert (Hnone : forall o : option,
             homogeneous o -> type_ o = float_e ->
             remove_from_list float_ini_t value o = (returned tt, o)).
  { intros o Ho Hto.
    rewrite remove_from_list_same_type by (symmetry; exact Hto).
    apply remove_from_list_loop_absent.
    - apply homogeneous_of_type; [exact Ho | symmetry; exact Hto].
    - intros v _. apply float_eqb_nan, Hnan. }
  split; [apply Hnone; assumption |].
  rewrite add_to_list_same_type by exact Htype. simpl snd.
  rewrite Hnone; [reflexivity | | exact Htype].
  apply homogeneous_with_values. unfold push_back.
  apply Forall_app. split; [exact Hhom |].
  constructor; [symmetry; exact Htype | constructor].
Qed.

Lemma remove_from_list_nan_witness :
  let this :=
    mk_option "ratio" float_e
      [option_value float_ini_t 0.5%float; option_value float_ini_t nan]
      None in
  remove_from_list float_ini_t nan this = (returned tt, this) /\
  values_ (snd (remove_from_list float_ini_t nan
                  (snd (add_to_list float_ini_t nan this))))
    = values_ this ++ [option_value float_ini_t nan].
Proof.
  intros this. apply (remove_from_list_nan nan this).
  - reflexivity.
  - apply homogeneousb_spec. reflexivity.
  - reflexivity.
Defined.

(** ** Copying cells *)

Lemma copy_option_same_type (T : ValueType) (v : value_of T)
  (this : option) :
  copy_option T (option_value T v) this
    = (returned tt,
       with_values this (values_ this ++ [option_value T v])).
Proof. unfold copy_option. rewrite dynamic_cast_same. reflexivity. Qed.

Lemma for_each_copy_option (T : ValueType) (cells : list option_holder) :
  forall this : option,
    Forall (fun cell => holder_type cell = get_enum_type T) cells ->
    for_each cells (fun cell => copy_option T cell) this
      = (returned tt, with_values this (values_ this ++ cells)).
Proof.
  induction cells as [| cell cells IH]; intros this Hcells; simpl.
  - unfold ret. rewrite app_nil_r, with_values_same. reflexivity.
  - inversion Hcells as [| ? ? Hcell Hcells']; subst.
    destruct (dynamic_cast_of_type T cell Hcell) as (v & -> & _).
    unfold bind. rewrite copy_option_same_type, IH by exact Hcells'.
    unfold with_values. simpl. rewrite <- app_assoc. reflexivity.
Qed.

(** X12: [copy_option<K>] called on the cells of a sequence in turn
    appends cells equal to them, in their order, as long as they are of
    kind [K], whatever the type of the option is; the type, the name and
    the schema stay.  At the first cell of another kind it dereferences
    a null pointer, the cells before that one being appended. *)
Theorem copy_option_in_turn (T : ValueType) (cells : list option_holder)
  (this : option) :
  (Forall (fun cell => holder_type cell = get_enum_type T) cells ->
   for_each cells (fun cell => copy_option T cell) this
     = (returned tt, with_values this (values_ this ++ cells))) /\
  (forall pre cell post,
      cells = pre ++ cell :: post ->
      Forall (fun cell' => holder_type cell' = get_enum_type T) pre ->
      holder_type cell <> get_enum_type T ->
      for_each cells (fun cell' => copy_option T cell') this
        = (null_dereference, with_values this (values_ this ++ pre))).
Proof.
  split; [apply for_each_copy_option |].
  intros pre cell post -> Hpre Hcell.
  rewrite for_each_app. unfold bind at 1.
  rewrite for_each_copy_option by exact Hpre.
  simpl for_each. unfold bind, copy_option.
  rewrite (dynamic_cast_not_of_type T cell Hcell). reflexivity.
Qed.

Lemma copy_option_in_turn_witness :
  let this := mk_option "copy" string_e [] None in
  for_each [option_value string_ini_t "80"; option_value string_ini_t "443"]
    (fun cell => copy_option string_ini_t cell) this
    = (returned tt,
       with_values this
         [option_value string_ini_t "80"; option_value string_ini_t "443"]) /\
  for_each [option_value string_ini_t "80"; option_value boolean_ini_t true]
    (fun cell => copy_option string_ini_t cell) this
    = (null_dereference,
       with_values this [option_value string_ini_t "80"]).
Proof.
  intros this. split.
  - apply (proj1 (copy_option_in_turn string_ini_t
                    [option_value string_ini_t "80";
                     option_value string_ini_t "443"] this)).
    repeat constructor.
  - apply (proj2 (copy_option_in_turn string_ini_t
                    [option_value string_ini_t "80";
                     option_value boolean_ini_t true] this)
             [option_value string_ini_t "80"]
             (option_value boolean_ini_t true) []).
    + reflexivity.
    + repeat constructor.
    + discriminate.
Defined.

(** ** Sequences of calls *)

(** One call with a body in [option.h], on an option that satisfies the
    invariant. *)
Lemma defined_call_safe (c : call) (this : option) :
  defined_in_option_h c = true ->
  homogeneous this ->
  homogeneous (snd (perform c this)) /\
  fst (perform c this) <> null_dereference.
Proof.
  intros Hdefined Hhom.
  destruct c as [T list | T value | T value position | T value | position];
    simpl perform; [| | | | discriminate].
  - rewrite set_list_run. split; [| discriminate].
    unfold homogeneous. simpl.
    apply Forall_forall. intros cell Hin.
    apply in_map_iff in Hin. destruct Hin as (v & <- & _). reflexivity.
  - destruct (option_type_eq_dec (get_enum_type T) (type_ this)) as [Ht | Ht].
    + rewrite add_to_list_same_type by auto. split; [| discriminate].
      apply homogeneous_with_values. unfold push_back.
      apply Forall_app. split; [exact Hhom |].
      constructor; [exact Ht | constructor].
    + rewrite add_to_list_other_type by exact Ht.
      split; [exact Hhom | discriminate].
  - destruct (option_type_eq_dec (get_enum_type T) (type_ this)) as [Ht | Ht].
    + destruct (N.ltb_spec (size (values_ this)) position) as [Hgt | Hle].
      * rewrite add_to_list_at_out_of_range by assumption.
        split; [exact Hhom | discriminate].
      * rewrite add_to_list_at_in_range by assumption.
        split; [| discriminate].
        apply homogeneous_with_values.
        apply Forall_vector_insert; [exact Ht | exact Hhom].
    + rewrite add_to_list_at_other_type by exact Ht.
      split; [exact Hhom | discriminate].
  - destruct (option_type_eq_dec (get_enum_type T) (type_ this)) as [Ht | Ht].
    + rewrite remove_from_list_same_type by exact Ht. split.
      * destruct (remove_from_list_loop_state T value (values_ this) 0 this)
          as [-> | [k ->]]; [exact Hhom |].
        apply homogeneous_with_values, Forall_vector_erase, Hhom.
      * rewrite remove_from_list_loop_returns; [discriminate |].
        apply homogeneous_of_type; assumption.
    + rewrite remove_from_list_other_type by exact Ht.
      split; [exact Hhom | discriminate].
Qed.

(** X13: from an option that satisfies the data-model invariant, any
    sequence of calls of [set_list], [add_to_list] (either overload) and
    [remove_from_list], with whatever kinds and arguments and with the
    caller going on after each exception, ends in an option that
    satisfies the invariant, and none of the calls dereferences a null
    pointer. *)
Theorem perform_all_safe (cs : list call) :
  forall this : option,
    forallb defined_in_option_h cs = true ->
    homogeneous this ->
    homogeneous (snd (perform_all cs this)) /\
    ~ In null_dereference (fst (perform_all cs this)) /\
    List.length (fst (perform_all cs this)) = List.length cs.
Proof.
  induction cs as [| c cs IH]; intros this Hdefined Hhom; simpl.
  - repeat split; [exact Hhom | intros []].
  - simpl in Hdefined. apply andb_prop in Hdefined.
    destruct Hdefined as [Hc Hcs].
    destruct (defined_call_safe c this Hc Hhom) as [Hhom' Hsafe].
    destruct (perform c this) as [o this'] eqn:Hperform.
    simpl in Hhom', Hsafe.
    destruct (IH this' Hcs Hhom') as (Hend & Hnone & Hlen).
    destruct (perform_all cs this') as [os this''].
    simpl in *. repeat split.
    + exact Hend.
    + intros [Ho | Hin]; [apply Hsafe, Ho | apply Hnone, Hin].
    + rewrite Hlen. reflexivity.
Qed.

Lemma perform_all_safe_witness :
  let this :=
    mk_option "ports" string_e [option_value string_ini_t "80"] None in
  let cs :=
    [call_add_to_list signed_ini_t 443%Z;
     call_set_list signed_ini_t [80%Z; 443%Z];
     call_add_to_list_at signed_ini_t 8080%Z 5%N;
     call_remove_from_list signed_ini_t 80%Z;
     call_remove_from_list string_ini_t "443"] in
  homogeneous (snd (perform_all cs this)) /\
  ~ In null_dereference (fst (perform_all cs this)) /\
  List.length (fst (perform_all cs this)) = List.length cs.
Proof.
  intros this cs. apply (perform_all_safe cs this).
  - reflexivity.
  - apply homogeneousb_spec. reflexivity.
Defined.

(** ** Removal followed by reads *)

(** X14: let the option be of type [K] and hold values of kind [K], let
    [v] be the first of them with [v == value], [pre] the values before
    it and [post] the values after it.  After
    [remove_from_list<K>(value)], [get_list<K>()] returns [pre] followed
    by [post] when a value is left; when [v] was the only value, the
    sequence is empty and [get<K>()] and [get_list<K>()] throw
    [not_found_exception(0)]. *)
Theorem remove_from_list_get_list (T : ValueType) (value v : value_of T)
  (pre post : list (value_of T)) (this : option) :
  type_ this = get_enum_type T ->
  values_ this = map (option_value T) (pre ++ v :: post) ->
  value_eqb T v value = true ->
  (forall v', In v' pre -> value_eqb T v' value = false) ->
  let after := snd (remove_from_list T value this) in
  fst (remove_from_list T value this) = returned tt /\
  values_ after = map (option_value T) (pre ++ post) /\
  (pre ++ post <> [] ->
   fst (get_list T after) = returned (pre ++ post)) /\
  (pre ++ post = [] ->
   fst (get T after) = thrown (not_found_exception 0%N) /\
   fst (get_list T after) = thrown (not_found_exception 0%N)).
Proof.
  intros Htype Hvalues Hv Hpre after. subst after.
  assert (Hrun : remove_from_list T value this
                 = (returned tt,
                    with_values this (map (option_value T) (pre ++ post)))).
  { rewrite remove_from_list_same_type by (symmetry; exact Htype).
    rewrite map_app in Hvalues. simpl in Hvalues.
    rewrite map_app, Hvalues.
    apply (remove_from_list_loop_first T value (map (option_value T) pre) []
             (map (option_value T) post) v this); auto.
    - apply Forall_forall. intros cell Hin.
      apply in_map_iff in Hin. destruct Hin as (x & <- & _). reflexivity.
    - intros v' Hin. apply in_map_iff in Hin. destruct Hin as (x & Hx & Hin).
      apply option_value_inj in Hx. subst x. apply Hpre, Hin. }
  rewrite Hrun. simpl fst. simpl snd.
  split; [reflexivity |]. split; [reflexivity |]. split.
  - intros Hne. rewrite (get_list_same_type T (pre ++ post)); auto.
  - intros Hempty. rewrite Hempty. split; reflexivity.
Qed.

Lemma remove_from_list_get_list_witness :
  let one := mk_option "port" string_e [option_value string_ini_t "80"] None in
  let two :=
    mk_option "ports" string_e
      [option_value string_ini_t "80"; option_value string_ini_t "443"]
      None in
  fst (get_list string_ini_t (snd (remove_from_list string_ini_t "443" two)))
    = returned ["80"] /\
  fst (get string_ini_t (snd (remove_from_list string_ini_t "80" one)))
    = thrown (not_found_exception 0%N).
Proof.
  intros one two. split.
  - apply (remove_from_list_get_list string_ini_t "443" "443" ["80"] [] two).
    + reflexivity.
    + reflexivity.
    + reflexivity.
    + intros v' [<- | []]. reflexivity.
    + discriminate.
  - apply (remove_from_list_get_list string_ini_t "80" "80" [] [] one).
    + reflexivity.
    + reflexivity.
    + reflexivity.
    + intros v' [].
    + reflexivity.
Defined.

End inicpp.
